(** * Camera feed viewer (src/App.tsx): capture-session lifecycle and
      fullscreen mirror

    The component [App] is embedded as an event-driven state machine.  Its
    React state ([useState]), its refs ([useRef]) and the part of the host
    platform it talks to (live media tracks, in-flight [getUserMedia] calls,
    the document's fullscreen element) are fields of one record; every
    handler, effect body and effect cleanup of the source is a function on
    that record, and the asynchronous boundaries ([await], promise callbacks,
    DOM events) are the events of the machine. *)

From Stdlib Require Import ZArith Lia Ascii String.
From stdpp Require Import base list strings gmap sets.

Local Open Scope string_scope.
Local Open Scope Z_scope.

(** ** Constants *)

Record Resolution := mkResolution {
  label : string;
  width : Z;
  height : Z;
}.

#[global] Instance Resolution_eq_dec : EqDecision Resolution.
Proof. solve_decision. Defined.

(** [const RESOLUTIONS = [...]] (lines 5-10). *)
Definition RESOLUTIONS : list Resolution := [
  mkResolution "480p (640x480)" 640 480;
  mkResolution "720p (1280x720)" 1280 720;
  mkResolution "1080p (1920x1080)" 1920 1080;
  mkResolution "4K (3840x2160)" 3840 2160
].

(** ** The two JavaScript primitives behind [handleResolutionChange] *)

Module JS.

(** A string is read one code unit per [ascii] (code units below 256).
    [StrWhiteSpaceChar] restricted to that range: TAB, LF, VT, FF, CR, SP
    and NBSP. *)
Definition is_white_space (c : ascii) : bool :=
  let n := nat_of_ascii c in
  ((9 <=? n) && (n <=? 13) || (n =? 32) || (n =? 160))%nat.

Fixpoint trim_start (s : string) : string :=
  match s with
  | String c s' => if is_white_space c then trim_start s' else s
  | EmptyString => s
  end.

(** The value of a radix-10 digit, if the code unit is one. *)
Definition digit_value (c : ascii) : option Z :=
  let n := nat_of_ascii c in
  if ((48 <=? n) && (n <=? 57))%nat then Some (Z.of_nat n - 48) else None.

(** Reads the longest prefix of radix-10 digits; [acc] is the value read so
    far, and [None] until a first digit has been seen. *)
Fixpoint read_digits (acc : option Z) (s : string) : option Z :=
  match s with
  | String c s' =>
      match digit_value c with
      | Some d => read_digits (Some (10 * default 0 acc + d)) s'
      | None => acc
      end
  | EmptyString => acc
  end.

(** [parseInt(string, 10)] (ECMA-262, 19.2.5): skip leading white space,
    take an optional sign, read the longest run of decimal digits and stop
    at the first other code unit.  [None] is [NaN].  The mathematical value
    is kept exact: the rounding to a double that the platform applies to
    long digit runs maps no integer above 3 into 0..3, which is all an
    index into [RESOLUTIONS] depends on, and [-0] indexes like [0]. *)
Definition parseInt (s : string) : option Z :=
  match trim_start s with
  | String "-"%char s' => Z.opp <$> read_digits None s'
  | String "+"%char s' => read_digits None s'
  | s' => read_digits None s'
  end.

(** [arr[i]] for a number [i]: the element when [i] is an integer index
    inside the array, [undefined] ([None]) for [NaN], a negative or a too
    large index.  No exception is raised. *)
Definition index {A} (arr : list A) (i : option Z) : option A :=
  match i with
  | Some z => if 0 <=? z then arr !! Z.to_nat z else None
  | None => None
  end.

End JS.

(** ** Platform objects *)

Inductive MediaDeviceKind := audioinput | audiooutput | videoinput.

#[global] Instance MediaDeviceKind_eq_dec : EqDecision MediaDeviceKind.
Proof. solve_decision. Defined.

Record MediaDeviceInfo := mkDevice {
  deviceId : string;
  kind : MediaDeviceKind;
  deviceLabel : string;
}.

(** The [MediaStreamConstraints] the source builds: [{ video: true, audio:
    false }] for the probe (line 149) and [{ video: { deviceId: { exact },
    width: { ideal }, height: { ideal } } }] in [getStream] (lines 192-198). *)
Inductive Constraints :=
| ProbeConstraints
| TargetConstraints (exactDeviceId : string) (idealWidth idealHeight : Z).

#[global] Instance Constraints_eq_dec : EqDecision Constraints.
Proof. solve_decision. Defined.

(** A delivered stream: the call it answers and its tracks (ids into the
    platform's track table). *)
Record MediaStream := mkStream {
  requested : Constraints;
  getTracks : list nat;
}.

#[global] Instance MediaStream_eq_dec : EqDecision MediaStream.
Proof. solve_decision. Defined.

(** DOM elements that can be the document's fullscreen element: the [div]
    behind [playerContainerRef], or any other element of the page (the
    [video] element put in fullscreen by the browser's own controls, say). *)
Inductive Element := playerContainer | otherElement (n : nat).

#[global] Instance Element_eq_dec : EqDecision Element.
Proof. solve_decision. Defined.

Inductive FullscreenRequest :=
| RequestFullscreen (e : Element)   (* [e.requestFullscreen()] *)
| ExitFullscreen.                   (* [document.exitFullscreen()] *)

#[global] Instance FullscreenRequest_eq_dec : EqDecision FullscreenRequest.
Proof. solve_decision. Defined.

(** What a rejected promise carries into a [catch]: an [Error] object (a
    [DOMException] is one) with its [name], or some other value. *)
Inductive Thrown := ErrorObject (name : string) | NotAnError.

(** ** The component and the platform around it *)

Record World := mkWorld {
  (* useState: the selectable cameras *)
  devices : list MediaDeviceInfo;
  (* useState *)
  selectedDeviceId : string;
  (* useState; [None] is [undefined] *)
  selectedResolution : option Resolution;
  (* useState; [None] is [null] *)
  error : option string;
  (* useState *)
  hasStream : bool;
  (* useState: the fullscreen mirror *)
  isFullscreen : bool;
  (* useRef: [streamRef.current] *)
  streamRef : option MediaStream;
  (* the component is mounted: [videoRef.current] and
     [playerContainerRef.current] are elements, the listener is registered *)
  mounted : bool;
  (* [videoRef.current.srcObject] *)
  srcObject : option MediaStream;
  (* platform: tracks not yet stopped *)
  liveTracks : gset nat;
  (* platform: every stream delivered so far *)
  opened : list MediaStream;
  (* platform: next fresh track id *)
  nextTrack : nat;
  (* platform: [getUserMedia] calls of [getStream] not yet
     settled, oldest first *)
  inFlight : list Constraints;
  (* platform: the probe of the first effect is not yet settled *)
  initPending : bool;
  (* [document.fullscreenElement] *)
  fullscreenElement : option Element;
  (* platform: fullscreen requests not yet settled,
     oldest first *)
  fullscreenRequests : list FullscreenRequest;
  (* platform: number of [fullscreenchange] events fired *)
  fullscreenchangeFired : nat;
  (* [document.exitFullscreen] is defined *)
  exitFullscreenSupported : bool;
  (* [console.error] output, oldest first *)
  console : list string;
}.

(** Field updates, one per field that the program or the platform writes. *)

Definition set_devices (v : list MediaDeviceInfo) (w : World) : World :=
  mkWorld v (selectedDeviceId w) (selectedResolution w) (error w)
    (hasStream w) (isFullscreen w) (streamRef w) (mounted w) (srcObject w)
    (liveTracks w) (opened w) (nextTrack w) (inFlight w) (initPending w)
    (fullscreenElement w) (fullscreenRequests w) (fullscreenchangeFired w)
    (exitFullscreenSupported w) (console w).

Definition set_selectedDeviceId (v : string) (w : World) : World :=
  mkWorld (devices w) v (selectedResolution w) (error w) (hasStream w)
    (isFullscreen w) (streamRef w) (mounted w) (srcObject w) (liveTracks w)
    (opened w) (nextTrack w) (inFlight w) (initPending w)
    (fullscreenElement w) (fullscreenRequests w) (fullscreenchangeFired w)
    (exitFullscreenSupported w) (console w).

Definition set_selectedResolution (v : option Resolution) (w : World) : World :=
  mkWorld (devices w) (selectedDeviceId w) v (error w) (hasStream w)
    (isFullscreen w) (streamRef w) (mounted w) (srcObject w) (liveTracks w)
    (opened w) (nextTrack w) (inFlight w) (initPending w)
    (fullscreenElement w) (fullscreenRequests w) (fullscreenchangeFired w)
    (exitFullscreenSupported w) (console w).

Definition set_error (v : option string) (w : World) : World :=
  mkWorld (devices w) (selectedDeviceId w) (selectedResolution w) v
    (hasStream w) (isFullscreen w) (streamRef w) (mounted w) (srcObject w)
    (liveTracks w) (opened w) (nextTrack w) (inFlight w) (initPending w)
    (fullscreenElement w) (fullscreenRequests w) (fullscreenchangeFired w)
    (exitFullscreenSupported w) (console w).

Definition set_hasStream (v : bool) (w : World) : World :=
  mkWorld (devices w) (selectedDeviceId w) (selectedResolution w) (error w) v
    (isFullscreen w) (streamRef w) (mounted w) (srcObject w) (liveTracks w)
    (opened w) (nextTrack w) (inFlight w) (initPending w)
    (fullscreenElement w) (fullscreenRequests w) (fullscreenchangeFired w)
    (exitFullscreenSupported w) (console w).

Definition set_isFullscreen (v : bool) (w : World) : World :=
  mkWorld (devices w) (selectedDeviceId w) (selectedResolution w) (error w)
    (hasStream w) v (streamRef w) (mounted w) (srcObject w) (liveTracks w)
    (opened w) (nextTrack w) (inFlight w) (initPending w)
    (fullscreenElement w) (fullscreenRequests w) (fullscreenchangeFired w)
    (exitFullscreenSupported w) (console w).

Definition set_streamRef (v : option MediaStream) (w : World) : World :=
  mkWorld (devices w) (selectedDeviceId w) (selectedResolution w) (error w)
    (hasStream w) (isFullscreen w) v (mounted w) (srcObject w) (liveTracks w)
    (opened w) (nextTrack w) (inFlight w) (initPending w)
    (fullscreenElement w) (fullscreenRequests w) (fullscreenchangeFired w)
    (exitFullscreenSupported w) (console w).

Definition set_mounted (v : bool) (w : World) : World :=
  mkWorld (devices w) (selectedDeviceId w) (selectedResolution w) (error w)
    (hasStream w) (isFullscreen w) (streamRef w) v (srcObject w)
    (liveTracks w) (opened w) (nextTrack w) (inFlight w) (initPending w)
    (fullscreenElement w) (fullscreenRequests w) (fullscreenchangeFired w)
    (exitFullscreenSupported w) (console w).

Definition set_srcObject (v : option MediaStream) (w : World) : World :=
  mkWorld (devices w) (selectedDeviceId w) (selectedResolution w) (error w)
    (hasStream w) (isFullscreen w) (streamRef w) (mounted w) v (liveTracks w)
    (opened w) (nextTrack w) (inFlight w) (initPending w)
    (fullscreenElement w) (fullscreenRequests w) (fullscreenchangeFired w)
    (exitFullscreenSupported w) (console w).

Definition set_liveTracks (v : gset nat) (w : World) : World :=
  mkWorld (devices w) (selectedDeviceId w) (selectedResolution w) (error w)
    (hasStream w) (isFullscreen w) (streamRef w) (mounted w) (srcObject w) v
    (opened w) (nextTrack w) (inFlight w) (initPending w)
    (fullscreenElement w) (fullscreenRequests w) (fullscreenchangeFired w)
    (exitFullscreenSupported w) (console w).

Definition set_opened (v : list MediaStream) (w : World) : World :=
  mkWorld (devices w) (selectedDeviceId w) (selectedResolution w) (error w)
    (hasStream w) (isFullscreen w) (streamRef w) (mounted w) (srcObject w)
    (liveTracks w) v (nextTrack w) (inFlight w) (initPending w)
    (fullscreenElement w) (fullscreenRequests w) (fullscreenchangeFired w)
    (exitFullscreenSupported w) (console w).

Definition set_nextTrack (v : nat) (w : World) : World :=
  mkWorld (devices w) (selectedDeviceId w) (selectedResolution w) (error w)
    (hasStream w) (isFullscreen w) (streamRef w) (mounted w) (srcObject w)
    (liveTracks w) (opened w) v (inFlight w) (initPending w)
    (fullscreenElement w) (fullscreenRequests w) (fullscreenchangeFired w)
    (exitFullscreenSupported w) (console w).

Definition set_inFlight (v : list Constraints) (w : World) : World :=
  mkWorld (devices w) (selectedDeviceId w) (selectedResolution w) (error w)
    (hasStream w) (isFullscreen w) (streamRef w) (mounted w) (srcObject w)
    (liveTracks w) (opened w) (nextTrack w) v (initPending w)
    (fullscreenElement w) (fullscreenRequests w) (fullscreenchangeFired w)
    (exitFullscreenSupported w) (console w).

Definition set_initPending (v : bool) (w : World) : World :=
  mkWorld (devices w) (selectedDeviceId w) (selectedResolution w) (error w)
    (hasStream w) (isFullscreen w) (streamRef w) (mounted w) (srcObject w)
    (liveTracks w) (opened w) (nextTrack w) (inFlight w) v
    (fullscreenElement w) (fullscreenRequests w) (fullscreenchangeFired w)
    (exitFullscreenSupported w) (console w).

Definition set_fullscreenElement (v : option Element) (w : World) : World :=
  mkWorld (devices w) (selectedDeviceId w) (selectedResolution w) (error w)
    (hasStream w) (isFullscreen w) (streamRef w) (mounted w) (srcObject w)
    (liveTracks w) (opened w) (nextTrack w) (inFlight w) (initPending w) v
    (fullscreenRequests w) (fullscreenchangeFired w)
    (exitFullscreenSupported w) (console w).

Definition set_fullscreenRequests (v : list FullscreenRequest) (w : World) : World :=
  mkWorld (devices w) (selectedDeviceId w) (selectedResolution w) (error w)
    (hasStream w) (isFullscreen w) (streamRef w) (mounted w) (srcObject w)
    (liveTracks w) (opened w) (nextTrack w) (inFlight w) (initPending w)
    (fullscreenElement w) v (fullscreenchangeFired w)
    (exitFullscreenSupported w) (console w).

Definition set_fullscreenchangeFired (v : nat) (w : World) : World :=
  mkWorld (devices w) (selectedDeviceId w) (selectedResolution w) (error w)
    (hasStream w) (isFullscreen w) (streamRef w) (mounted w) (srcObject w)
    (liveTracks w) (opened w) (nextTrack w) (inFlight w) (initPending w)
    (fullscreenElement w) (fullscreenRequests w) v (exitFullscreenSupported w)
    (console w).

Definition set_console (v : list string) (w : World) : World :=
  mkWorld (devices w) (selectedDeviceId w) (selectedResolution w) (error w)
    (hasStream w) (isFullscreen w) (streamRef w) (mounted w) (srcObject w)
    (liveTracks w) (opened w) (nextTrack w) (inFlight w) (initPending w)
    (fullscreenElement w) (fullscreenRequests w) (fullscreenchangeFired w)
    (exitFullscreenSupported w) v.


(** ** Messages shown in the error banner *)

Definition msg_no_devices : string := "No camera devices found.".
Definition msg_access_denied : string :=
  "Camera access was denied. Please grant permission in your browser settings and refresh the page.".
Definition msg_no_access : string :=
  "Could not access camera devices. Please ensure you have a camera connected and permissions are allowed.".
Definition msg_unknown : string :=
  "An unknown error occurred while accessing media devices.".
Definition msg_unsupported : string :=
  "Your browser does not support camera access.".
Definition msg_stream_start : string :=
  "Error starting video stream. Please try another device or check permissions.".

(** ** Platform operations *)

(** [track.stop()]. *)
Definition stop_track (w : World) (t : nat) : World :=
  set_liveTracks (liveTracks w ∖ {[t]}) w.

(** [stream.getTracks().forEach(track => track.stop())]. *)
Definition stop_all_tracks (s : MediaStream) (w : World) : World :=
  foldl stop_track w (getTracks s).

(** The platform delivers a stream for the constraints [c]: [n] fresh tracks,
    all live. *)
Definition open_stream (c : Constraints) (n : nat) (w : World)
  : MediaStream * World :=
  let s := mkStream c (seq (nextTrack w) n) in
  (s, set_nextTrack (nextTrack w + n)%nat
        (set_opened (opened w ++ [s])
          (set_liveTracks (liveTracks w ∪ list_to_set (getTracks s)) w))).

(** [navigator.mediaDevices.getUserMedia(constraints)] called by [getStream]:
    the call is in flight until the platform settles it. *)
Definition getUserMedia (c : Constraints) (w : World) : World :=
  set_inFlight (inFlight w ++ [c]) w.

(** A stream is unreleased while one of its tracks is live. *)
Definition is_unreleased (w : World) (s : MediaStream) : bool :=
  existsb (λ t, bool_decide (t ∈ liveTracks w)) (getTracks s).

Definition unreleased (w : World) : list MediaStream :=
  List.filter (is_unreleased w) (opened w).

(** ** React state setters

    A setter of a component that is no longer mounted changes nothing. *)

Definition setDevices (v : list MediaDeviceInfo) (w : World) : World :=
  if mounted w then set_devices v w else w.
Definition setSelectedDeviceId (v : string) (w : World) : World :=
  if mounted w then set_selectedDeviceId v w else w.
Definition setSelectedResolution (v : option Resolution) (w : World) : World :=
  if mounted w then set_selectedResolution v w else w.
Definition setError (v : option string) (w : World) : World :=
  if mounted w then set_error v w else w.
Definition setHasStream (v : bool) (w : World) : World :=
  if mounted w then set_hasStream v w else w.
Definition setIsFullscreen (v : bool) (w : World) : World :=
  if mounted w then set_isFullscreen v w else w.

Definition console_error (msg : string) (w : World) : World :=
  set_console (console w ++ [msg]) w.

(** ** The capture effect (lines 185-221) *)

(** [getStream] up to its [await] (lines 191-200).  With an [undefined]
    resolution the read [selectedResolution.width] throws before the [try]:
    the promise of [getStream] rejects, nobody handles it, and no call
    reaches the platform. *)
Definition getStream (w : World) : World :=
  match selectedResolution w with
  | Some r =>
      getUserMedia (TargetConstraints (selectedDeviceId w) (width r) (height r)) w
  | None => w
  end.

(** [getStream] after its [await], when the call resolved with [stream]
    (lines 201-205). *)
Definition getStream_resolved (stream : MediaStream) (w : World) : World :=
  let w := set_streamRef (Some stream) w in
  if mounted w then setHasStream true (set_srcObject (Some stream) w) else w.

(** [getStream] after its [await], when the call rejected (lines 206-210). *)
Definition getStream_rejected (w : World) : World :=
  setHasStream false
    (console_error "Error starting video stream."
      (setError (Some msg_stream_start) w)).

(** The effect body (lines 186-214). *)
Definition captureEffect (w : World) : World :=
  let w :=
    match streamRef w with
    | Some s => stop_all_tracks s w
    | None => w
    end in
  if String.eqb (selectedDeviceId w) "" then w else getStream w.

(** The cleanup the effect returns (lines 216-220). *)
Definition captureCleanup (w : World) : World :=
  match streamRef w with
  | Some s => stop_all_tracks s w
  | None => w
  end.

(** ** Rendering and committing

    What React does after a handler or a promise callback changed the state:
    it renders again, and when a dependency of the capture effect changed
    ([Object.is] on [selectedDeviceId] and [selectedResolution]; the entries
    of [RESOLUTIONS] are pairwise different, so comparing them as values is
    comparing them as references) it runs the cleanup of the previous run and
    then the effect body.  Unmounting runs the cleanup and detaches the
    refs and the [fullscreenchange] listener. *)

Definition unmount (w : World) : World :=
  set_mounted false (captureCleanup w).

(** [ResolutionSelector] reads [selectedResolution.width] while rendering
    (lines 53-55): with [undefined] the render throws, and without an error
    boundary React unmounts the tree. *)
Definition render_throws (w : World) : bool :=
  bool_decide (selectedResolution w = None).

Definition deps (w : World) : string * option Resolution :=
  (selectedDeviceId w, selectedResolution w).

Definition commit (prev w : World) : World :=
  if negb (mounted w) then w
  else if render_throws w then unmount w
  else if bool_decide (deps prev = deps w) then w
  else captureEffect (captureCleanup w).

(** ** The device catalog (lines 146-183) *)

(** How the two awaited platform calls of [getInitialPermissionAndDevices]
    can end: the probe rejects; the probe delivers a stream of [ntracks]
    tracks and [enumerateDevices] rejects; or both resolve. *)
Inductive InitOutcome :=
| ProbeRejected (err : Thrown)
| EnumerationRejected (ntracks : nat) (err : Thrown)
| Enumerated (ntracks : nat) (allDevices : list MediaDeviceInfo).

(** Lines 149-150: the probe stream is released at once. *)
Definition probe_granted (ntracks : nat) (w : World) : World :=
  let '(tempStream, w) := open_stream ProbeConstraints ntracks w in
  stop_all_tracks tempStream w.

(** The [catch] of lines 164-175. *)
Definition init_catch (err : Thrown) (w : World) : World :=
  console_error "Error accessing media devices."
    match err with
    | ErrorObject name =>
        if String.eqb name "NotAllowedError"
           || String.eqb name "PermissionDeniedError"
        then setError (Some msg_access_denied) w
        else setError (Some msg_no_access) w
    | NotAnError => setError (Some msg_unknown) w
    end.

Definition getInitialPermissionAndDevices (o : InitOutcome) (w : World)
  : World :=
  match o with
  | ProbeRejected err => init_catch err w
  | EnumerationRejected ntracks err => init_catch err (probe_granted ntracks w)
  | Enumerated ntracks allDevices =>
      let w := probe_granted ntracks w in
      let videoDevices :=
        filter (λ device, kind device = videoinput) allDevices in
      let w := setDevices videoDevices w in
      match videoDevices with
      | device0 :: _ => setError None (setSelectedDeviceId (deviceId device0) w)
      | [] => setError (Some msg_no_devices) w
      end
  end.

(** ** The fullscreen controller (lines 223-256) *)

(** [!!document.fullscreenElement]. *)
Definition has_fullscreen_element (w : World) : bool :=
  match fullscreenElement w with Some _ => true | None => false end.

(** The listener (lines 224-226). *)
Definition handleFullscreenChange (w : World) : World :=
  setIsFullscreen (has_fullscreen_element w) w.

Definition request_fullscreen (r : FullscreenRequest) (w : World) : World :=
  set_fullscreenRequests (fullscreenRequests w ++ [r]) w.

(** Lines 244-256.  [playerContainerRef.current] is an element exactly while
    the component is mounted. *)
Definition toggleFullscreen (w : World) : World :=
  if negb (mounted w) then w
  else
    match fullscreenElement w with
    | None => request_fullscreen (RequestFullscreen playerContainer) w
    | Some _ =>
        if exitFullscreenSupported w then request_fullscreen ExitFullscreen w
        else w
    end.

(** The [.catch] callback of line 248-250. *)
Definition requestFullscreen_rejected (w : World) : World :=
  console_error "Error attempting to enable full-screen mode" w.

(** The platform fires [fullscreenchange]: the listener runs if it is still
    registered. *)
Definition fire_fullscreenchange (w : World) : World :=
  let w := set_fullscreenchangeFired (S (fullscreenchangeFired w)) w in
  if mounted w then handleFullscreenChange w else w.

(** The platform settles the oldest fullscreen request.  A granted request on
    the element that is already in fullscreen, and an exit with no element in
    fullscreen, change nothing and fire no event; a refused request rejects
    its promise.  One fullscreen element at a time is modelled, so leaving
    fullscreen leaves none. *)
Definition settle_fullscreen (granted : bool) (w : World) : World :=
  match fullscreenRequests w with
  | [] => w
  | r :: rest =>
      let w := set_fullscreenRequests rest w in
      match r with
      | RequestFullscreen e =>
          if granted then
            if bool_decide (fullscreenElement w = Some e) then w
            else fire_fullscreenchange (set_fullscreenElement (Some e) w)
          else requestFullscreen_rejected w
      | ExitFullscreen =>
          if granted && has_fullscreen_element w
          then fire_fullscreenchange (set_fullscreenElement None w)
          else w
      end
  end.

(** ** Handlers of the two selectors (lines 235-242) *)

Definition handleDeviceChange (value : string) (w : World) : World :=
  setSelectedDeviceId value w.

Definition handleResolutionChange (value : string) (w : World) : World :=
  let resolutionIndex := JS.parseInt value in
  setSelectedResolution (JS.index RESOLUTIONS resolutionIndex) w.

(** ** The machine *)

(** The first render and the first run of the three effects.
    [mediaDevicesSupported] is the test of line 178. *)
Definition App_mount (mediaDevicesSupported exitSupported : bool) : World :=
  let w :=
    mkWorld [] "" (JS.index RESOLUTIONS (Some 1)) None false false
      None true None
      ∅ [] 0%nat [] false None [] 0%nat exitSupported [] in
  let w :=
    if mediaDevicesSupported then set_initPending true w
    else setError (Some msg_unsupported) w in
  captureEffect w.

Inductive Event :=
| InitSettled (o : InitOutcome)
    (* the awaits of [getInitialPermissionAndDevices] are over *)
| DeviceChange (value : string)
    (* [onChange] of the camera selector *)
| ResolutionChange (value : string)
    (* [onChange] of the resolution selector *)
| StreamDelivered (k ntracks : nat)
    (* the [k]-th call in flight resolves with a stream of [ntracks] tracks *)
| StreamRefused (k : nat)
    (* the [k]-th call in flight rejects *)
| ToggleFullscreen
    (* [onClick] of the fullscreen button *)
| FullscreenSettled (granted : bool)
    (* the platform settles the oldest fullscreen request *)
| FullscreenExternal (e : option Element)
    (* the platform changes the fullscreen element on its own (escape key) *)
| Unmount.

Definition step (w : World) (ev : Event) : World :=
  match ev with
  | InitSettled o =>
      if initPending w
      then commit w (getInitialPermissionAndDevices o (set_initPending false w))
      else w
  | DeviceChange value =>
      if mounted w then commit w (handleDeviceChange value w) else w
  | ResolutionChange value =>
      if mounted w then commit w (handleResolutionChange value w) else w
  | StreamDelivered k ntracks =>
      match inFlight w !! k with
      | Some c =>
          let '(stream, w') :=
            open_stream c ntracks (set_inFlight (delete k (inFlight w)) w) in
          commit w (getStream_resolved stream w')
      | None => w
      end
  | StreamRefused k =>
      match inFlight w !! k with
      | Some _ =>
          commit w (getStream_rejected (set_inFlight (delete k (inFlight w)) w))
      | None => w
      end
  | ToggleFullscreen =>
      if mounted w then toggleFullscreen w else w
  | FullscreenSettled granted => settle_fullscreen granted w
  | FullscreenExternal e =>
      if bool_decide (fullscreenElement w = e) then w
      else fire_fullscreenchange (set_fullscreenElement e w)
  | Unmount =>
      if mounted w then unmount w else w
  end.

Definition run (w : World) (evs : list Event) : World := foldl step w evs.

(** What the platform is asked for when the capture effect runs in [w]. *)
Definition target_constraints (w : World) : option Constraints :=
  (λ r, TargetConstraints (selectedDeviceId w) (width r) (height r))
    <$> selectedResolution w.

(** What the session holds: the call answered by [streamRef.current]. *)
Definition committed (w : World) : option Constraints :=
  requested <$> streamRef w.

(** The tracks of [streamRef.current] that are still live. *)
Definition held_tracks (w : World) : list nat :=
  match streamRef w with
  | Some s => filter (λ t, t ∈ liveTracks w) (getTracks s)
  | None => []
  end.

(** The platform refuses the probe: [getUserMedia] rejects with a
    [DOMException] named [NotAllowedError] ([PermissionDeniedError] in older
    browsers). *)
Definition is_permission_refusal (err : Thrown) : bool :=
  match err with
  | ErrorObject name =>
      bool_decide (name = "NotAllowedError")
      || bool_decide (name = "PermissionDeniedError")
  | NotAnError => false
  end.

(** A change of target: one of the two selectors fires. *)
Definition is_target_change (ev : Event) : bool :=
  match ev with
  | DeviceChange _ | ResolutionChange _ => true
  | _ => false
  end.

(** The mirror agrees with the platform. *)
Definition in_sync (w : World) : Prop :=
  isFullscreen w = has_fullscreen_element w.

(** The guarantee on stale results in the words of the specification: what
    the session holds answers the current target, and every stream delivered
    for another target is released and is not the one rendered. *)
Definition stale_results_discarded (w : World) : Prop :=
  committed w = target_constraints w ∧
  ∀ s, s ∈ opened w → Some (requested s) ≠ target_constraints w →
       is_unreleased w s = false ∧ srcObject w ≠ Some s.

(** The resource invariant in the words of the specification. *)
Definition at_most_one_unreleased (w : World) : Prop :=
  (length (unreleased w) ≤ 1)%nat.

(** The toggle contract in the words of the specification: the branch is
    chosen by whether the fullscreen element is the managed container. *)
Definition toggle_as_specified (w : World) : Prop :=
  fullscreenRequests (toggleFullscreen w)
  = (fullscreenRequests w ++
      [if bool_decide (fullscreenElement w = Some playerContainer)
       then ExitFullscreen
       else RequestFullscreen playerContainer])%list.

(** The part of the world the fullscreen controller is about. *)
Definition fs_view (w : World) : bool * nat * option Element :=
  (isFullscreen w, fullscreenchangeFired w, fullscreenElement w).

(** ** Concrete worlds used below *)

Definition camA : MediaDeviceInfo := mkDevice "A" videoinput "Front camera".
Definition camB : MediaDeviceInfo := mkDevice "B" videoinput "Back camera".
Definition mic : MediaDeviceInfo := mkDevice "M" audioinput "Microphone".

(** The page has loaded on a machine with two cameras: [camA] is selected by
    default and the call for it is in flight. *)
Definition w_first_target : World :=
  run (App_mount true true) [InitSettled (Enumerated 1 [mic; camA; camB])].

(** The user picks [camB] before that call has settled. *)
Definition w_second_target : World :=
  run w_first_target [DeviceChange "B"].

(** A session showing the stream of [camA]. *)
Definition w_streaming : World :=
  run w_first_target [StreamDelivered 0 1].

(** The browser's own controls have put another element (the [video]
    element, say) in fullscreen. *)
Definition w_video_fullscreen : World :=
  run w_streaming [FullscreenExternal (Some (otherElement 0))].

(** ** What the component renders *)

(** [String(n)] for a natural number [n]: its decimal digits, most
    significant first.  [fuel] bounds the number of digits. *)
Fixpoint digits_of (fuel n : nat) (acc : string) : string :=
  match fuel with
  | O => acc
  | S fuel' =>
      let acc' := String (ascii_of_nat (48 + n mod 10)) acc in
      if (n <? 10)%nat then acc' else digits_of fuel' (n / 10) acc'
  end.

Definition Number_toString (n : nat) : string := digits_of (S n) n "".

(** A value is truthy in [!!error], [error && ...] when it is a non-empty
    string. *)
Definition truthy (v : option string) : bool :=
  match v with
  | Some s => negb (String.eqb s "")
  | None => false
  end.

(** [Array.prototype.findIndex], counting from [i]; [-1] when no element
    passes. *)
Fixpoint findIndex_from {A} (p : A → bool) (l : list A) (i : Z) : Z :=
  match l with
  | [] => -1
  | x :: l' => if p x then i else findIndex_from p l' (i + 1)
  end.

(** [ResolutionSelector] (lines 52-77).  [selectedIndex] is [None] when the
    read [selectedResolution.width] throws. *)
Definition ResolutionSelector_selectedIndex (selected : option Resolution)
  : option Z :=
  (λ sel, findIndex_from
            (λ res, (width res =? width sel) && (height res =? height sel))
            RESOLUTIONS 0) <$> selected.

(** The [value] of the [select]: [selectedIndex >= 0 ? selectedIndex : '']. *)
Definition ResolutionSelector_value (selected : option Resolution)
  : option string :=
  (λ selectedIndex,
     if 0 <=? selectedIndex then Number_toString (Z.to_nat selectedIndex)
     else "") <$> ResolutionSelector_selectedIndex selected.

(** The [option] elements, as pairs of [value] and text (lines 69-73). *)
Definition ResolutionSelector_options : list (string * string) :=
  imap (λ index res, (Number_toString index, label res)) RESOLUTIONS.

(** [DeviceSelector] (lines 21-44): the [option] elements as pairs of [value]
    and text.  An [option] without a [value] attribute has its text as
    value. *)
Definition DeviceSelector_options (devs : list MediaDeviceInfo)
  : list (string * string) :=
  if (0 <? length devs)%nat then
    imap (λ index device,
            (deviceId device,
             if String.eqb (deviceLabel device) ""
             then "Camera " +:+ Number_toString (index + 1)
             else deviceLabel device)) devs
  else [("No cameras found", "No cameras found")].

Definition DeviceSelector_disabled (disabled : bool)
    (devs : list MediaDeviceInfo) : bool :=
  disabled || (length devs =? 0)%nat.

(** The props [App] hands down (lines 272-299). *)
Definition App_controls_disabled (w : World) : bool :=
  truthy (error w) || (length (devices w) =? 0)%nat.

Definition App_banner_shown (w : World) : bool := truthy (error w).

(** [hasStream && !error]: the video is opaque and the fullscreen button is
    rendered exactly when this holds (lines 110, 114, 119, 296). *)
Definition App_video_shown (w : World) : bool :=
  hasStream w && negb (truthy (error w)).

(** ** Notions used by the invariants *)

(** The tracks reachable through [streamRef.current]. *)
Definition held_set (w : World) : gset nat :=
  match streamRef w with
  | Some s => list_to_set (getTracks s)
  | None => ∅
  end.

(** Events after which React may run the capture effect again. *)
Definition runs_capture_effect (ev : Event) : bool :=
  match ev with
  | InitSettled _ | DeviceChange _ | ResolutionChange _ => true
  | _ => false
  end.

(** A run in which the target never changes while an acquisition is in
    flight. *)
Fixpoint race_free (w : World) (evs : list Event) : bool :=
  match evs with
  | [] => true
  | ev :: evs' =>
      (negb (runs_capture_effect ev) || bool_decide (inFlight w = []))
      && race_free (step w ev) evs'
  end.

(** Every live track can be reached through [streamRef.current], at most one
    acquisition is in flight, and while one is in flight no track is live. *)
Definition single_holder (w : World) : Prop :=
  liveTracks w ⊆ held_set w ∧
  (length (inFlight w) ≤ 1)%nat ∧
  (inFlight w ≠ [] → liveTracks w = ∅).

(** The platform hands out fresh track ids, and [streamRef.current] is a
    stream the platform delivered. *)
Definition tracks_fresh (w : World) : Prop :=
  NoDup (concat (getTracks <$> opened w)) ∧
  (∀ t, t ∈ concat (getTracks <$> opened w) → (t < nextTrack w)%nat) ∧
  (∀ s, streamRef w = Some s → s ∈ opened w).

(** A call [getStream] may issue: an exact, non-empty device id and the width
    and height of one entry of [RESOLUTIONS]. *)
Definition well_formed_request (c : Constraints) : Prop :=
  match c with
  | TargetConstraints id w h =>
      id ≠ "" ∧ ∃ r, r ∈ RESOLUTIONS ∧ w = width r ∧ h = height r
  | ProbeConstraints => False
  end.

Definition resolution_in_table (w : World) : Prop :=
  mounted w = true → ∃ r, r ∈ RESOLUTIONS ∧ selectedResolution w = Some r.

(** The part of the world the capture session is about. *)
Definition cap_view (w : World)
  : gset nat * option MediaStream * list Constraints * list MediaStream * nat
    * bool :=
  (liveTracks w, streamRef w, inFlight w, opened w, nextTrack w, mounted w).

(** The React state of the component. *)
Definition react_state (w : World)
  : list MediaDeviceInfo * string * option Resolution * option string * bool
    * bool :=
  (devices w, selectedDeviceId w, selectedResolution w, error w, hasStream w,
   isFullscreen w).

Definition is_fullscreen_event (ev : Event) : bool :=
  match ev with
  | ToggleFullscreen | FullscreenSettled _ | FullscreenExternal _ => true
  | _ => false
  end.

(** A short session without a race: the catalog settles, the stream of
    [camA] arrives, the user picks [camB], its stream arrives. *)
Definition session_without_race : list Event :=
  [InitSettled (Enumerated 1 [mic; camA; camB]); StreamDelivered 0 1;
   DeviceChange "B"; StreamDelivered 0 1].

(** Everything of the world but the fullscreen controller's part and the
    console. *)
Definition session_view (w : World) :=
  (devices w, selectedDeviceId w, selectedResolution w, error w, hasStream w,
   streamRef w, mounted w, srcObject w, liveTracks w, opened w, nextTrack w,
   inFlight w, initPending w).

(** * Properties *)

(** ** Stopping tracks *)

Lemma stop_all_tracks_eq s w :
  stop_all_tracks s w
  = set_liveTracks (liveTracks w ∖ list_to_set (getTracks s)) w.
Proof.
  unfold stop_all_tracks. generalize (getTracks s) as ts.
  intros ts. revert w. induction ts as [|t ts IH]; intros w.
  - destruct w; cbn. unfold set_liveTracks; cbn. f_equal.
    symmetry. apply difference_empty_L.
  - cbn [foldl]. rewrite IH. destruct w; unfold stop_track, set_liveTracks; cbn.
    f_equal. apply difference_difference_l_L.
Qed.

Lemma captureCleanup_eq w :
  captureCleanup w
  = match streamRef w with
    | Some s => set_liveTracks (liveTracks w ∖ list_to_set (getTracks s)) w
    | None => w
    end.
Proof.
  unfold captureCleanup.
  destruct (streamRef w); [apply stop_all_tracks_eq|done].
Qed.

Lemma captureEffect_eq w :
  captureEffect w
  = let w' :=
      match streamRef w with
      | Some s => set_liveTracks (liveTracks w ∖ list_to_set (getTracks s)) w
      | None => w
      end in
    if String.eqb (selectedDeviceId w) "" then w' else getStream w'.
Proof.
  unfold captureEffect. destruct (streamRef w); [|done].
  rewrite stop_all_tracks_eq. done.
Qed.

(** Projections of field updates. *)
Ltac fields := cbn [devices selectedDeviceId selectedResolution error hasStream
  isFullscreen streamRef mounted srcObject liveTracks opened nextTrack inFlight
  initPending fullscreenElement fullscreenRequests fullscreenchangeFired
  exitFullscreenSupported console
  set_devices set_selectedDeviceId set_selectedResolution set_error
  set_hasStream set_isFullscreen set_streamRef set_mounted set_srcObject
  set_liveTracks set_opened set_nextTrack set_inFlight set_initPending
  set_fullscreenElement set_fullscreenRequests set_fullscreenchangeFired
  set_console] in *.

(** Unfolds the component's operations down to field updates. *)
Ltac unfold_ops :=
  repeat first
    [ rewrite stop_all_tracks_eq
    | rewrite captureCleanup_eq
    | rewrite captureEffect_eq
    | progress unfold commit, unmount,
        getStream, getStream_resolved, getStream_rejected, getUserMedia,
        handleDeviceChange, handleResolutionChange, toggleFullscreen,
        request_fullscreen, requestFullscreen_rejected,
        fire_fullscreenchange, handleFullscreenChange, settle_fullscreen,
        getInitialPermissionAndDevices, init_catch, probe_granted,
        open_stream, console_error, render_throws, deps,
        setDevices, setSelectedDeviceId, setSelectedResolution, setError,
        setHasStream, setIsFullscreen in * ].

(** ** What a commit leaves alone *)

Ltac frame_commit :=
  intros; unfold_ops; fields; repeat case_match; fields;
  first [reflexivity | congruence].

Lemma commit_selectedDeviceId prev w :
  selectedDeviceId (commit prev w) = selectedDeviceId w.
Proof. frame_commit. Qed.

Lemma commit_selectedResolution prev w :
  selectedResolution (commit prev w) = selectedResolution w.
Proof. frame_commit. Qed.

Lemma commit_error prev w : error (commit prev w) = error w.
Proof. frame_commit. Qed.

Lemma commit_hasStream prev w : hasStream (commit prev w) = hasStream w.
Proof. frame_commit. Qed.

Lemma commit_isFullscreen prev w : isFullscreen (commit prev w) = isFullscreen w.
Proof. frame_commit. Qed.

Lemma commit_streamRef prev w : streamRef (commit prev w) = streamRef w.
Proof. frame_commit. Qed.

Lemma commit_srcObject prev w : srcObject (commit prev w) = srcObject w.
Proof. frame_commit. Qed.

Lemma commit_opened prev w : opened (commit prev w) = opened w.
Proof. frame_commit. Qed.

Lemma commit_fullscreenElement prev w :
  fullscreenElement (commit prev w) = fullscreenElement w.
Proof. frame_commit. Qed.

Lemma commit_fullscreenchangeFired prev w :
  fullscreenchangeFired (commit prev w) = fullscreenchangeFired w.
Proof. frame_commit. Qed.

Lemma commit_devices prev w : devices (commit prev w) = devices w.
Proof. frame_commit. Qed.

Lemma commit_same_deps_inFlight prev w :
  deps prev = deps w → inFlight (commit prev w) = inFlight w.
Proof.
  intros Hd. unfold commit, unmount. rewrite captureCleanup_eq.
  rewrite (bool_decide_eq_true_2 (deps prev = deps w)) by exact Hd.
  repeat case_match; reflexivity.
Qed.

Lemma commit_same_deps prev w :
  mounted w = true → selectedResolution w ≠ None → deps prev = deps w →
  commit prev w = w.
Proof.
  intros Hm Hr Hd. unfold commit, render_throws. rewrite Hm. cbn [negb].
  rewrite bool_decide_eq_false_2 by done.
  by rewrite bool_decide_eq_true_2.
Qed.

(** ** C3: default selection of the device catalog *)

Lemma probe_granted_eq n w :
  probe_granted n w
  = set_liveTracks
      ((liveTracks w ∪ list_to_set (seq (nextTrack w) n))
       ∖ list_to_set (seq (nextTrack w) n))
      (set_nextTrack (nextTrack w + n)%nat
        (set_opened
          (opened w ++ [mkStream ProbeConstraints (seq (nextTrack w) n)]) w)).
Proof. unfold probe_granted, open_stream. by rewrite stop_all_tracks_eq. Qed.

(** The success path of [getInitialPermissionAndDevices], on any mounted
    component. *)
Lemma init_enumerated w n allDevices :
  mounted w = true →
  let w' := getInitialPermissionAndDevices (Enumerated n allDevices) w in
  let videoDevices := filter (λ device, kind device = videoinput) allDevices in
  mounted w' = true ∧
  devices w' = videoDevices ∧
  selectedDeviceId w'
  = match videoDevices with
    | device0 :: _ => deviceId device0
    | [] => selectedDeviceId w
    end ∧
  error w'
  = match videoDevices with
    | _ :: _ => None
    | [] => Some msg_no_devices
    end.
Proof.
  intros Hm. cbn zeta. unfold getInitialPermissionAndDevices.
  rewrite probe_granted_eq.
  destruct (filter _ allDevices) as [|device0 rest];
    unfold setError, setSelectedDeviceId, setDevices; fields;
    rewrite Hm; fields; rewrite ?Hm; fields; rewrite ?Hm; done.
Qed.

(** C3.  Once the probe and the enumeration of the first effect have both
    resolved, the catalog holds the enumerated devices of kind [videoinput];
    when that list is not empty its first entry is the selected device and no
    error is reported; when it is empty the error is the no-device-found
    message and the selection stays the empty id. *)
Theorem C3_catalog_default_first_device :
  ∀ (exitSupported : bool) (ntracks : nat) (allDevices : list MediaDeviceInfo),
    let w := step (App_mount true exitSupported)
               (InitSettled (Enumerated ntracks allDevices)) in
    let videoDevices := filter (λ device, kind device = videoinput) allDevices in
    devices w = videoDevices ∧
    match videoDevices with
    | device0 :: _ => selectedDeviceId w = deviceId device0 ∧ error w = None
    | [] => selectedDeviceId w = "" ∧ error w = Some msg_no_devices
    end.
Proof.
  intros exitSupported ntracks allDevices. cbn zeta.
  change (step (App_mount true exitSupported) (InitSettled ?o))
    with (commit (App_mount true exitSupported)
            (getInitialPermissionAndDevices o
               (set_initPending false (App_mount true exitSupported)))).
  rewrite commit_devices, commit_selectedDeviceId, commit_error.
  destruct (init_enumerated
              (set_initPending false (App_mount true exitSupported))
              ntracks allDevices eq_refl) as (_ & Hd & Hid & Herr).
  split; [exact Hd|]. rewrite Hid, Herr.
  by destruct (filter _ allDevices).
Qed.

(** ** C4: a refused probe *)

(** C4.  When the platform refuses the probe of the first effect, the error
    reported is the access-denied message; it is not the stream-start
    message, no device gets selected and no acquisition is started. *)
Theorem C4_permission_refusal_reports_access_denied :
  ∀ (exitSupported : bool) (err : Thrown),
    is_permission_refusal err = true →
    let w := step (App_mount true exitSupported)
               (InitSettled (ProbeRejected err)) in
    error w = Some msg_access_denied ∧
    error w ≠ Some msg_stream_start ∧
    selectedDeviceId w = "" ∧
    inFlight w = [].
Proof.
  intros exitSupported [name|] Hrefused; [|done]. cbn in Hrefused.
  assert (String.eqb name "NotAllowedError"
          || String.eqb name "PermissionDeniedError" = true) as Hname.
  { apply orb_true_iff in Hrefused as [H|H]; apply bool_decide_eq_true in H;
      subst name; reflexivity. }
  cbn zeta.
  change (step (App_mount true exitSupported) (InitSettled ?o))
    with (commit (App_mount true exitSupported)
            (getInitialPermissionAndDevices o
               (set_initPending false (App_mount true exitSupported)))).
  rewrite commit_error, commit_selectedDeviceId.
  assert (getInitialPermissionAndDevices (ProbeRejected (ErrorObject name))
            (set_initPending false (App_mount true exitSupported))
          = console_error "Error accessing media devices."
              (set_error (Some msg_access_denied)
                 (set_initPending false (App_mount true exitSupported))))
    as ->.
  { unfold getInitialPermissionAndDevices, init_catch. by rewrite Hname. }
  rewrite commit_same_deps_inFlight by reflexivity.
  repeat split; done.
Qed.

Lemma C4_witness :
  is_permission_refusal (ErrorObject "NotAllowedError") = true ∧
  error (step (App_mount true true)
           (InitSettled (ProbeRejected (ErrorObject "NotAllowedError"))))
  = Some msg_access_denied.
Proof.
  split; [reflexivity|].
  apply (C4_permission_refusal_reports_access_denied true
           (ErrorObject "NotAllowedError")).
  reflexivity.
Defined.

(** ** C5: a failed acquisition *)

(** C5.  When a call in flight rejects, the error becomes the stream-start
    message and [hasStream] becomes false; no new call is issued (the calls
    in flight are the old ones minus the rejected one), no stream is opened,
    and the selected device and resolution stay what they were. *)
Theorem C5_failed_acquisition_no_retry :
  ∀ (w : World) (k : nat) (c : Constraints),
    mounted w = true →
    inFlight w !! k = Some c →
    let w' := step w (StreamRefused k) in
    error w' = Some msg_stream_start ∧
    hasStream w' = false ∧
    inFlight w' = delete k (inFlight w) ∧
    opened w' = opened w ∧
    selectedDeviceId w' = selectedDeviceId w ∧
    selectedResolution w' = selectedResolution w.
Proof.
  intros w k c Hmounted Hk. cbn zeta. unfold step. rewrite Hk.
  rewrite commit_error, commit_hasStream, commit_opened,
    commit_selectedDeviceId, commit_selectedResolution.
  assert (getStream_rejected (set_inFlight (delete k (inFlight w)) w)
          = set_hasStream false
              (set_console (console w ++ ["Error starting video stream."])
                 (set_error (Some msg_stream_start)
                    (set_inFlight (delete k (inFlight w)) w)))) as Hrej.
  { unfold getStream_rejected, console_error, setHasStream, setError. fields.
    rewrite Hmounted. fields. by rewrite Hmounted. }
  rewrite commit_same_deps_inFlight by (by rewrite Hrej).
  rewrite Hrej. repeat split; done.
Qed.

Lemma C5_witness :
  mounted w_first_target = true ∧
  inFlight w_first_target !! 0%nat = Some (TargetConstraints "A" 1280 720) ∧
  error (step w_first_target (StreamRefused 0)) = Some msg_stream_start ∧
  inFlight (step w_first_target (StreamRefused 0)) = [].
Proof.
  split; [reflexivity|]. split; [reflexivity|].
  destruct (C5_failed_acquisition_no_retry w_first_target 0
              (TargetConstraints "A" 1280 720)) as (He & _ & Hq & _);
    [reflexivity|reflexivity|].
  split; [exact He|exact Hq].
Defined.

(** ** C6: disposing the view *)

Lemma filter_none {A} (P : A → Prop) `{∀ x, Decision (P x)} (l : list A) :
  (∀ x, x ∈ l → ¬ P x) → filter P l = [].
Proof.
  induction l as [|x l IH]; intros Hall; [done|].
  rewrite filter_cons_False by (apply Hall; left).
  apply IH. intros y Hy. apply Hall. by right.
Qed.

(** C6.  Unmounting while the session holds a stream stops every track of
    that stream: the live tracks afterwards are the former ones minus the
    tracks of the held stream, none of the held stream's tracks is live, and
    when the held stream was the only one with live tracks no track at all
    stays live. *)
Theorem C6_unmount_stops_every_held_track :
  ∀ (w : World) (s : MediaStream),
    mounted w = true →
    streamRef w = Some s →
    let w' := step w Unmount in
    mounted w' = false ∧
    liveTracks w' = liveTracks w ∖ list_to_set (getTracks s) ∧
    (∀ t, t ∈ getTracks s → t ∉ liveTracks w') ∧
    held_tracks w' = [] ∧
    (liveTracks w ⊆ list_to_set (getTracks s) → liveTracks w' = ∅).
Proof.
  intros w s Hmounted Hs. cbn zeta. unfold step. rewrite Hmounted.
  unfold unmount. rewrite captureCleanup_eq, Hs. fields.
  split; [done|]. split; [done|]. split; [|split].
  - intros t Ht Hlive. apply elem_of_difference in Hlive as [_ Hnot].
    apply Hnot, elem_of_list_to_set, Ht.
  - unfold held_tracks. fields. rewrite Hs.
    apply filter_none. intros t Ht Hlive.
    apply elem_of_difference in Hlive as [_ Hnot].
    apply Hnot, elem_of_list_to_set, Ht.
  - intros Hsub. apply set_eq. intros t. split; [|by intros ?%not_elem_of_empty].
    intros [Hlive Hnot]%elem_of_difference. exfalso. apply Hnot, Hsub, Hlive.
Qed.

Lemma C6_witness :
  mounted w_streaming = true ∧
  streamRef w_streaming
  = Some (mkStream (TargetConstraints "A" 1280 720) [1%nat]) ∧
  liveTracks w_streaming = {[1%nat]} ∧
  liveTracks (step w_streaming Unmount) = ∅.
Proof.
  split; [reflexivity|]. split; [reflexivity|]. split; [reflexivity|].
  destruct (C6_unmount_stops_every_held_track w_streaming
              (mkStream (TargetConstraints "A" 1280 720) [1%nat]))
    as (_ & _ & _ & _ & Hnone); [reflexivity|reflexivity|].
  apply Hnone.
  replace (liveTracks w_streaming) with ({[1%nat]} : gset nat) by reflexivity.
  apply union_subseteq_l.
Defined.

(** ** C10: the resolution selector *)

Example parseInt_option_values :
  JS.parseInt "0" = Some 0 ∧ JS.parseInt "1" = Some 1 ∧
  JS.parseInt "2" = Some 2 ∧ JS.parseInt "3" = Some 3.
Proof. repeat split. Qed.

Example parseInt_prefix : JS.parseInt "  -12px" = Some (-12).
Proof. reflexivity. Qed.

Example parseInt_fraction : JS.parseInt "1.9" = Some 1.
Proof. reflexivity. Qed.

Example parseInt_NaN :
  JS.parseInt "No cameras found" = None ∧ JS.parseInt "" = None.
Proof. split; reflexivity. Qed.

Lemma index_RESOLUTIONS (i : option Z) :
  JS.index RESOLUTIONS i
  = match i with
    | Some 0 => Some (mkResolution "480p (640x480)" 640 480)
    | Some 1 => Some (mkResolution "720p (1280x720)" 1280 720)
    | Some 2 => Some (mkResolution "1080p (1920x1080)" 1920 1080)
    | Some 3 => Some (mkResolution "4K (3840x2160)" 3840 2160)
    | _ => None
    end.
Proof.
  destruct i as [[|p|p]|]; try reflexivity.
  destruct p as [[q|q|]|[q|q|]|]; try reflexivity;
    cbn [JS.index Z.leb Z.compare Z.to_nat];
    apply lookup_ge_None_2; cbn [length RESOLUTIONS]; lia.
Qed.

(** C10.  [handleResolutionChange] parses the selector's value with
    [parseInt] and reads [RESOLUTIONS] at that index with no bounds check:
    a parsed index 0, 1, 2 or 3 selects the corresponding triple, and every
    other value ([NaN], a negative or a larger index) selects [undefined];
    the handler reports no error.  The selection is the same once React has
    committed the update. *)
Theorem C10_resolution_index_unchecked :
  ∀ (value : string) (w : World),
    mounted w = true →
    let w' := handleResolutionChange value w in
    selectedResolution w'
    = match JS.parseInt value with
      | Some 0 => Some (mkResolution "480p (640x480)" 640 480)
      | Some 1 => Some (mkResolution "720p (1280x720)" 1280 720)
      | Some 2 => Some (mkResolution "1080p (1920x1080)" 1920 1080)
      | Some 3 => Some (mkResolution "4K (3840x2160)" 3840 2160)
      | _ => None
      end ∧
    error w' = error w ∧
    selectedResolution (step w (ResolutionChange value)) = selectedResolution w'.
Proof.
  intros value w Hm. cbn zeta. split; [|split].
  - unfold handleResolutionChange, setSelectedResolution. rewrite Hm. fields.
    apply index_RESOLUTIONS.
  - unfold handleResolutionChange, setSelectedResolution. rewrite Hm. done.
  - unfold step. rewrite Hm. apply commit_selectedResolution.
Qed.

Lemma C10_witness :
  mounted w_streaming = true ∧
  selectedResolution (handleResolutionChange "3" w_streaming)
  = Some (mkResolution "4K (3840x2160)" 3840 2160) ∧
  selectedResolution (handleResolutionChange "4" w_streaming) = None ∧
  selectedResolution (handleResolutionChange "-1" w_streaming) = None.
Proof.
  split; [reflexivity|].
  pose proof (C10_resolution_index_unchecked "3" w_streaming eq_refl) as (H3 & _).
  pose proof (C10_resolution_index_unchecked "4" w_streaming eq_refl) as (H4 & _).
  pose proof (C10_resolution_index_unchecked "-1" w_streaming eq_refl) as (Hm1 & _).
  split; [exact H3|]. split; [exact H4|exact Hm1].
Defined.

(** ** C7: the fullscreen toggle *)

(** C7, counterexample.  With another element than the container in
    fullscreen the toggle asks to leave fullscreen; the claim wants a request
    for fullscreen on the container there. *)
Lemma C7_counterexample_other_element_fullscreen :
  fullscreenElement w_video_fullscreen = Some (otherElement 0) ∧
  fullscreenRequests (toggleFullscreen w_video_fullscreen) = [ExitFullscreen] ∧
  ¬ toggle_as_specified w_video_fullscreen.
Proof.
  split; [reflexivity|]. split; [reflexivity|].
  unfold toggle_as_specified. vm_compute. discriminate.
Qed.

(** C7, amended.  With the container mounted and [document.exitFullscreen]
    available, the toggle issues exactly one request: fullscreen on the
    container when the document has no fullscreen element, and exit from
    fullscreen when it has one, whichever element that is. *)
Theorem C7_toggle_tests_any_fullscreen_element :
  ∀ (w : World),
    mounted w = true →
    exitFullscreenSupported w = true →
    fullscreenRequests (step w ToggleFullscreen)
    = (fullscreenRequests w ++
        [match fullscreenElement w with
         | None => RequestFullscreen playerContainer
         | Some _ => ExitFullscreen
         end])%list.
Proof.
  intros w Hm Hexit. unfold step, toggleFullscreen. rewrite Hm. cbn [negb].
  destruct (fullscreenElement w); [rewrite Hexit|]; reflexivity.
Qed.

Lemma C7_witness :
  mounted w_streaming = true ∧
  exitFullscreenSupported w_streaming = true ∧
  fullscreenRequests (step w_streaming ToggleFullscreen)
  = [RequestFullscreen playerContainer].
Proof.
  split; [reflexivity|]. split; [reflexivity|].
  apply (C7_toggle_tests_any_fullscreen_element w_streaming); reflexivity.
Defined.

(** ** C9: who writes the fullscreen mirror *)

(** The capture session and the device catalog never touch the fullscreen
    part of the world. *)

Lemma fs_view_stop_all_tracks s w : fs_view (stop_all_tracks s w) = fs_view w.
Proof. by rewrite stop_all_tracks_eq. Qed.

Lemma fs_view_setDevices v w : fs_view (setDevices v w) = fs_view w.
Proof. unfold setDevices. by destruct (mounted w). Qed.

Lemma fs_view_setSelectedDeviceId v w :
  fs_view (setSelectedDeviceId v w) = fs_view w.
Proof. unfold setSelectedDeviceId. by destruct (mounted w). Qed.

Lemma fs_view_setSelectedResolution v w :
  fs_view (setSelectedResolution v w) = fs_view w.
Proof. unfold setSelectedResolution. by destruct (mounted w). Qed.

Lemma fs_view_setError v w : fs_view (setError v w) = fs_view w.
Proof. unfold setError. by destruct (mounted w). Qed.

Lemma fs_view_setHasStream v w : fs_view (setHasStream v w) = fs_view w.
Proof. unfold setHasStream. by destruct (mounted w). Qed.

Lemma fs_view_captureCleanup w : fs_view (captureCleanup w) = fs_view w.
Proof. rewrite captureCleanup_eq. by destruct (streamRef w). Qed.

Lemma fs_view_getStream w : fs_view (getStream w) = fs_view w.
Proof. unfold getStream. by destruct (selectedResolution w). Qed.

Lemma fs_view_captureEffect w : fs_view (captureEffect w) = fs_view w.
Proof.
  rewrite captureEffect_eq. cbn zeta.
  destruct (String.eqb _ _); [|rewrite fs_view_getStream];
    by destruct (streamRef w).
Qed.

Lemma fs_view_unmount w : fs_view (unmount w) = fs_view w.
Proof. unfold unmount. apply fs_view_captureCleanup. Qed.

Lemma fs_view_commit prev w : fs_view (commit prev w) = fs_view w.
Proof.
  unfold commit. repeat case_match; try done.
  - apply fs_view_unmount.
  - by rewrite fs_view_captureEffect, fs_view_captureCleanup.
Qed.

Lemma fs_view_getStream_resolved s w :
  fs_view (getStream_resolved s w) = fs_view w.
Proof.
  unfold getStream_resolved. cbn zeta. case_match; [|done].
  by rewrite fs_view_setHasStream.
Qed.

Lemma fs_view_getStream_rejected w : fs_view (getStream_rejected w) = fs_view w.
Proof.
  unfold getStream_rejected, console_error.
  rewrite fs_view_setHasStream. apply fs_view_setError.
Qed.

Lemma fs_view_probe_granted n w : fs_view (probe_granted n w) = fs_view w.
Proof. unfold probe_granted, open_stream. by rewrite fs_view_stop_all_tracks. Qed.

Lemma fs_view_init_catch err w : fs_view (init_catch err w) = fs_view w.
Proof.
  unfold init_catch, console_error.
  repeat case_match; apply fs_view_setError.
Qed.

Lemma fs_view_getInitialPermissionAndDevices o w :
  fs_view (getInitialPermissionAndDevices o w) = fs_view w.
Proof.
  destruct o as [err|n err|n allDevices]; cbn [getInitialPermissionAndDevices].
  - apply fs_view_init_catch.
  - by rewrite fs_view_init_catch, fs_view_probe_granted.
  - cbn zeta. case_match;
      rewrite fs_view_setError, ?fs_view_setSelectedDeviceId,
        fs_view_setDevices, fs_view_probe_granted; done.
Qed.

Lemma fs_view_toggleFullscreen w : fs_view (toggleFullscreen w) = fs_view w.
Proof. unfold toggleFullscreen. by repeat case_match. Qed.

(** Every event that is not the platform firing [fullscreenchange] leaves the
    fullscreen part of the world as it is. *)
Lemma fs_view_step_other w ev :
  match ev with
  | FullscreenSettled _ | FullscreenExternal _ => True
  | _ => fs_view (step w ev) = fs_view w
  end.
Proof.
  destruct ev as [o|v|v|k n|k| | | |]; try exact I; unfold step.
  - case_match; [|done].
    by rewrite fs_view_commit, fs_view_getInitialPermissionAndDevices.
  - case_match; [|done]. unfold handleDeviceChange.
    by rewrite fs_view_commit, fs_view_setSelectedDeviceId.
  - case_match; [|done]. unfold handleResolutionChange.
    by rewrite fs_view_commit, fs_view_setSelectedResolution.
  - case_match; [|done]. unfold open_stream.
    by rewrite fs_view_commit, fs_view_getStream_resolved.
  - case_match; [|done].
    by rewrite fs_view_commit, fs_view_getStream_rejected.
  - case_match; [|done]. apply fs_view_toggleFullscreen.
  - case_match; [|done]. apply fs_view_unmount.
Qed.

(** What one [fullscreenchange] event does. *)
Lemma fire_fullscreenchange_spec w :
  fullscreenchangeFired (fire_fullscreenchange w) = S (fullscreenchangeFired w) ∧
  fullscreenElement (fire_fullscreenchange w) = fullscreenElement w ∧
  mounted (fire_fullscreenchange w) = mounted w ∧
  isFullscreen (fire_fullscreenchange w)
  = if mounted w then has_fullscreen_element w else isFullscreen w.
Proof.
  unfold fire_fullscreenchange, handleFullscreenChange, setIsFullscreen.
  cbn zeta. fields.
  destruct (mounted w) eqn:Hm; fields; rewrite ?Hm; fields; done.
Qed.

(** C9.  Over every event of the machine: when the platform fired no
    [fullscreenchange] during the event the mirror keeps its value, and when
    it fired one (the listener being registered) the mirror is whether the
    document has a fullscreen element.  In particular the toggle itself and
    the rejection callback of its request leave the mirror alone. *)
Theorem C9_mirror_written_only_by_listener :
  ∀ (w : World) (ev : Event),
    let w' := step w ev in
    (fullscreenchangeFired w' = fullscreenchangeFired w →
     isFullscreen w' = isFullscreen w) ∧
    (fullscreenchangeFired w' ≠ fullscreenchangeFired w →
     mounted w = true →
     isFullscreen w' = has_fullscreen_element w') ∧
    isFullscreen (toggleFullscreen w) = isFullscreen w ∧
    isFullscreen (requestFullscreen_rejected w) = isFullscreen w.
Proof.
  intros w ev. cbn zeta.
  assert (∀ w0 : World,
    let w1 := fire_fullscreenchange w0 in
    isFullscreen w0 = isFullscreen w → mounted w0 = mounted w →
    fullscreenchangeFired w0 = fullscreenchangeFired w →
    (fullscreenchangeFired w1 = fullscreenchangeFired w →
     isFullscreen w1 = isFullscreen w) ∧
    (fullscreenchangeFired w1 ≠ fullscreenchangeFired w → mounted w = true →
     isFullscreen w1 = has_fullscreen_element w1)) as Hfire.
  { intros w0 w1 Hi Hm Hf.
    destruct (fire_fullscreenchange_spec w0) as (Hf1 & He1 & Hm1 & Hi1).
    fold w1 in Hf1, He1, Hm1, Hi1. split.
    - intros Heq. rewrite Hf1, Hf in Heq. lia.
    - intros _ Hmw. rewrite Hi1, Hm, Hmw.
      unfold has_fullscreen_element. by rewrite He1. }
  assert (∀ w1 : World, fs_view w1 = fs_view w →
    (fullscreenchangeFired w1 = fullscreenchangeFired w →
     isFullscreen w1 = isFullscreen w) ∧
    (fullscreenchangeFired w1 ≠ fullscreenchangeFired w →
     mounted w = true →
     isFullscreen w1 = has_fullscreen_element w1)) as Hsame.
  { unfold fs_view. intros w1 [= Hi Hf He]. split; [done|]. by intros []. }
  assert ((fullscreenchangeFired (step w ev) = fullscreenchangeFired w →
           isFullscreen (step w ev) = isFullscreen w) ∧
          (fullscreenchangeFired (step w ev) ≠ fullscreenchangeFired w →
           mounted w = true →
           isFullscreen (step w ev) = has_fullscreen_element (step w ev)))
    as [Hkeep Hset].
  { pose proof (fs_view_step_other w ev) as Hother.
    destruct ev as [o|v|v|k n|k| |granted|e|]; try (apply Hsame, Hother).
    - unfold step, settle_fullscreen.
      destruct (fullscreenRequests w) as [|[e|] rest]; [by apply Hsame|..].
      + destruct granted; [|by apply Hsame].
        fields. case_bool_decide; [by apply Hsame|]. by apply Hfire.
      + destruct (granted && _); [|by apply Hsame]. by apply Hfire.
    - unfold step. case_bool_decide; [by apply Hsame|]. by apply Hfire. }
  split; [exact Hkeep|]. split; [exact Hset|]. split; [|reflexivity].
  pose proof (fs_view_toggleFullscreen w) as [= Hi _ _]. exact Hi.
Qed.

Lemma C9_witness :
  let w := step w_streaming ToggleFullscreen in
  mounted w = true ∧
  fullscreenchangeFired w = fullscreenchangeFired w_streaming ∧
  isFullscreen w = isFullscreen w_streaming ∧
  fullscreenchangeFired (step w (FullscreenSettled true))
  ≠ fullscreenchangeFired w ∧
  isFullscreen (step w (FullscreenSettled true))
  = has_fullscreen_element (step w (FullscreenSettled true)).
Proof.
  cbn zeta. split; [vm_compute; reflexivity|].
  split; [vm_compute; reflexivity|].
  destruct (C9_mirror_written_only_by_listener w_streaming ToggleFullscreen)
    as (Hkeep & _).
  destruct (C9_mirror_written_only_by_listener
              (step w_streaming ToggleFullscreen) (FullscreenSettled true))
    as (_ & Hset & _).
  split; [apply Hkeep; vm_compute; reflexivity|].
  split; [vm_compute; discriminate|].
  apply Hset; [vm_compute; discriminate|vm_compute; reflexivity].
Defined.

(** ** C8: toggling twice *)

Lemma step_toggle (w : World) :
  mounted w = true →
  exitFullscreenSupported w = true →
  step w ToggleFullscreen
  = request_fullscreen
      match fullscreenElement w with
      | None => RequestFullscreen playerContainer
      | Some _ => ExitFullscreen
      end w.
Proof.
  intros Hm Hexit. unfold step, toggleFullscreen. rewrite Hm. cbn [negb].
  destruct (fullscreenElement w); [rewrite Hexit|]; reflexivity.
Qed.

Lemma settle_enter_granted (w : World) (e : Element) :
  fullscreenRequests w = [] →
  fullscreenElement w ≠ Some e →
  settle_fullscreen true (request_fullscreen (RequestFullscreen e) w)
  = fire_fullscreenchange (set_fullscreenElement (Some e) w).
Proof.
  intros Hreq Hne. unfold settle_fullscreen, request_fullscreen. fields.
  rewrite Hreq. cbn [app]. fields.
  rewrite bool_decide_eq_false_2 by exact Hne.
  destruct w; cbn in Hreq; subst; reflexivity.
Qed.

Lemma settle_exit_granted (w : World) (e : Element) :
  fullscreenRequests w = [] →
  fullscreenElement w = Some e →
  settle_fullscreen true (request_fullscreen ExitFullscreen w)
  = fire_fullscreenchange (set_fullscreenElement None w).
Proof.
  intros Hreq He. unfold settle_fullscreen, request_fullscreen. fields.
  rewrite Hreq. cbn [app]. unfold has_fullscreen_element. fields.
  rewrite He. cbn [andb].
  destruct w; cbn in Hreq; subst; reflexivity.
Qed.

(** One toggle whose request the platform grants. *)
Lemma toggle_then_grant (w : World) :
  mounted w = true →
  exitFullscreenSupported w = true →
  fullscreenRequests w = [] →
  let w1 := run w [ToggleFullscreen; FullscreenSettled true] in
  mounted w1 = true ∧
  exitFullscreenSupported w1 = true ∧
  fullscreenRequests w1 = [] ∧
  fullscreenchangeFired w1 = S (fullscreenchangeFired w) ∧
  has_fullscreen_element w1 = negb (has_fullscreen_element w) ∧
  isFullscreen w1 = has_fullscreen_element w1.
Proof.
  intros Hm Hexit Hreq. cbn zeta. unfold run. cbn [foldl].
  rewrite (step_toggle w Hm Hexit). cbn [step].
  destruct (fullscreenElement w) as [e|] eqn:He.
  - rewrite (settle_exit_granted w e Hreq He).
    unfold fire_fullscreenchange, handleFullscreenChange, setIsFullscreen,
      has_fullscreen_element.
    fields. rewrite Hm. fields. rewrite Hm, He. fields. done.
  - rewrite (settle_enter_granted w playerContainer Hreq)
      by (rewrite He; discriminate).
    unfold fire_fullscreenchange, handleFullscreenChange, setIsFullscreen,
      has_fullscreen_element.
    fields. rewrite Hm. fields. rewrite Hm, He. fields. done.
Qed.

(** C8.  From a mounted component whose mirror agrees with the platform and
    with no fullscreen request pending: a toggle, its request granted and
    notified, a second toggle, its request granted and notified.  The mirror
    flips after the first notification and is back at its starting value
    after the second; the platform has fired exactly two notifications. *)
Theorem C8_toggle_twice_restores_mirror :
  ∀ (w : World),
    mounted w = true →
    exitFullscreenSupported w = true →
    fullscreenRequests w = [] →
    in_sync w →
    let w1 := run w [ToggleFullscreen; FullscreenSettled true] in
    let w2 := run w1 [ToggleFullscreen; FullscreenSettled true] in
    isFullscreen w1 = negb (isFullscreen w) ∧
    isFullscreen w2 = isFullscreen w ∧
    fullscreenchangeFired w2 = (fullscreenchangeFired w + 2)%nat.
Proof.
  intros w Hm Hexit Hreq Hsync w1 w2. unfold in_sync in Hsync.
  destruct (toggle_then_grant w Hm Hexit Hreq)
    as (Hm1 & Hexit1 & Hreq1 & Hf1 & He1 & Hi1).
  fold w1 in Hm1, Hexit1, Hreq1, Hf1, He1, Hi1.
  destruct (toggle_then_grant w1 Hm1 Hexit1 Hreq1)
    as (_ & _ & _ & Hf2 & He2 & Hi2).
  fold w2 in Hf2, He2, Hi2.
  split; [by rewrite Hi1, He1, Hsync|].
  split; [by rewrite Hi2, He2, He1, negb_involutive, Hsync|].
  rewrite Hf2, Hf1. lia.
Qed.

Lemma C8_witness :
  mounted w_streaming = true ∧
  exitFullscreenSupported w_streaming = true ∧
  fullscreenRequests w_streaming = [] ∧
  in_sync w_streaming ∧
  isFullscreen
    (run (run w_streaming [ToggleFullscreen; FullscreenSettled true])
       [ToggleFullscreen; FullscreenSettled true])
  = isFullscreen w_streaming.
Proof.
  assert (mounted w_streaming = true) as Hm by (vm_compute; reflexivity).
  assert (exitFullscreenSupported w_streaming = true) as Hexit
    by (vm_compute; reflexivity).
  assert (fullscreenRequests w_streaming = []) as Hreq
    by (vm_compute; reflexivity).
  assert (in_sync w_streaming) as Hsync by (vm_compute; reflexivity).
  pose proof (C8_toggle_twice_restores_mirror w_streaming Hm Hexit Hreq Hsync)
    as (_ & Hback & _).
  split; [exact Hm|]. split; [exact Hexit|]. split; [exact Hreq|].
  split; [exact Hsync|exact Hback].
Defined.

(** ** C1: two targets in quick succession *)

(** A commit starts at most one acquisition, and the one it starts is for the
    target selected at that moment. *)
Lemma commit_inFlight prev w :
  inFlight (commit prev w) = inFlight w ∨
  ∃ c, inFlight (commit prev w) = (inFlight w ++ [c])%list ∧
       target_constraints (commit prev w) = Some c ∧
       mounted (commit prev w) = true.
Proof.
  unfold commit, unmount, render_throws.
  destruct (mounted w) eqn:Hm; cbn [negb]; [|by left].
  case_bool_decide as Hres.
  { left. rewrite captureCleanup_eq. by destruct (streamRef w). }
  case_bool_decide as Hdeps; [by left|].
  rewrite captureEffect_eq, captureCleanup_eq. cbn zeta.
  destruct (selectedResolution w) as [r|] eqn:Hr; [|done].
  destruct (streamRef w) as [s|] eqn:Hs; fields; rewrite ?Hs; fields;
    (destruct (String.eqb (selectedDeviceId w) "") eqn:Hid; [by left|]);
    right; exists (TargetConstraints (selectedDeviceId w) (width r) (height r));
    unfold getStream, getUserMedia, target_constraints; fields;
    rewrite Hr; fields; rewrite ?Hr; done.
Qed.

Lemma target_change_inFlight w ev :
  is_target_change ev = true →
  inFlight (step w ev) = inFlight w ∨
  ∃ c, inFlight (step w ev) = (inFlight w ++ [c])%list ∧
       target_constraints (step w ev) = Some c ∧
       mounted (step w ev) = true.
Proof.
  destruct ev as [o|v|v|k n|k| | | |]; try discriminate; intros _;
    unfold step; (destruct (mounted w) eqn:Hm; [|by left]).
  - pose proof (commit_inFlight w (handleDeviceChange v w)) as H.
    unfold handleDeviceChange, setSelectedDeviceId in H |- *.
    rewrite Hm in H |- *. exact H.
  - pose proof (commit_inFlight w (handleResolutionChange v w)) as H.
    unfold handleResolutionChange, setSelectedResolution in H |- *.
    rewrite Hm in H |- *. exact H.
Qed.

Lemma getStream_resolved_mounted s w :
  mounted w = true →
  getStream_resolved s w
  = set_hasStream true (set_srcObject (Some s) (set_streamRef (Some s) w)).
Proof.
  intros Hm. unfold getStream_resolved, setHasStream. cbn zeta. fields.
  rewrite Hm. fields. by rewrite ?Hm.
Qed.

(** A delivered stream is committed and rendered as it arrives, whatever the
    target selected by then. *)
Lemma delivered_is_committed w k n c :
  mounted w = true →
  selectedResolution w ≠ None →
  inFlight w !! k = Some c →
  let w' := step w (StreamDelivered k n) in
  streamRef w' = Some (mkStream c (seq (nextTrack w) n)) ∧
  srcObject w' = streamRef w' ∧
  hasStream w' = true ∧
  inFlight w' = delete k (inFlight w) ∧
  mounted w' = true ∧
  deps w' = deps w.
Proof.
  intros Hm Hr Hk. cbn zeta. unfold step. rewrite Hk. unfold open_stream.
  cbv beta iota zeta.
  rewrite getStream_resolved_mounted by exact Hm.
  rewrite commit_same_deps; [|exact Hm|exact Hr|reflexivity].
  repeat split; try reflexivity. exact Hm.
Qed.

(** C1, counterexample.  [camA] is the default target, the user picks [camB]
    before the first call has settled, the platform answers the call for
    [camB] first and the one for [camA] last: the session ends up holding and
    rendering the stream of [camA] while [camB] is selected, and the stream of
    [camB] keeps its live track. *)
Lemma C1_counterexample_stale_result_committed :
  let w := run w_second_target [StreamDelivered 1 1; StreamDelivered 0 1] in
  target_constraints w = Some (TargetConstraints "B" 1280 720) ∧
  committed w = Some (TargetConstraints "A" 1280 720) ∧
  (requested <$> srcObject w) = Some (TargetConstraints "A" 1280 720) ∧
  ¬ stale_results_discarded w.
Proof.
  cbn zeta. split; [vm_compute; reflexivity|]. split; [vm_compute; reflexivity|].
  split; [vm_compute; reflexivity|].
  intros [Hcommitted _]. vm_compute in Hcommitted. discriminate.
Qed.

(** C1, amended.  After two changes of target in a row, each of which started
    an acquisition while none was in flight before, the second call is the
    one for the target now selected.  There is no staleness check: each
    result is committed and rendered as it arrives.  So when the platform
    answers the two calls in the order they were issued, the session first
    holds and renders the stream of the first target and ends up holding and
    rendering the stream of the second, which is the selected target. *)
Theorem C1_results_committed_in_arrival_order :
  ∀ (w : World) (e1 e2 : Event) (c1 c2 : Constraints) (n1 n2 : nat),
    is_target_change e1 = true →
    is_target_change e2 = true →
    inFlight w = [] →
    inFlight (run w [e1; e2]) = [c1; c2] →
    let w2 := run w [e1; e2] in
    let w3 := step w2 (StreamDelivered 0 n1) in
    let w4 := step w3 (StreamDelivered 0 n2) in
    target_constraints w2 = Some c2 ∧
    (committed w3 = Some c1 ∧ srcObject w3 = streamRef w3 ∧
     hasStream w3 = true) ∧
    (committed w4 = Some c2 ∧ srcObject w4 = streamRef w4 ∧
     hasStream w4 = true ∧ target_constraints w4 = Some c2).
Proof.
  intros w e1 e2 c1 c2 n1 n2 He1 He2 Hnone Htwo w2 w3 w4.
  change (inFlight w2 = [c1; c2]) in Htwo.
  assert (target_constraints w2 = Some c2 ∧ mounted w2 = true) as [Ht2 Hm2].
  { subst w2. unfold run in *. cbn [foldl] in *.
    destruct (target_change_inFlight w e1 He1) as [H1|(c & H1 & _)];
      destruct (target_change_inFlight (step w e1) e2 He2)
        as [H2|(c' & H2 & Ht & Hm)];
      rewrite H2, H1, Hnone in Htwo; try discriminate.
    cbn in Htwo. by injection Htwo as -> ->. }
  assert (selectedResolution w2 ≠ None) as Hr2.
  { unfold target_constraints in Ht2. by destruct (selectedResolution w2). }
  destruct (delivered_is_committed w2 0 n1 c1 Hm2 Hr2)
    as (Hs3 & Hv3 & Hh3 & Hq3 & Hm3 & Hd3); [by rewrite Htwo|].
  fold w3 in Hs3, Hv3, Hh3, Hq3, Hm3, Hd3.
  assert (selectedResolution w3 ≠ None) as Hr3.
  { unfold deps in Hd3. injection Hd3 as _ ->. exact Hr2. }
  destruct (delivered_is_committed w3 0 n2 c2 Hm3 Hr3)
    as (Hs4 & Hv4 & Hh4 & _ & _ & Hd4); [by rewrite Hq3, Htwo|].
  fold w4 in Hs4, Hv4, Hh4, Hd4.
  split; [exact Ht2|]. split.
  - split; [unfold committed; rewrite Hs3; reflexivity|].
    split; [exact Hv3|exact Hh3].
  - split; [unfold committed; rewrite Hs4; reflexivity|].
    split; [exact Hv4|]. split; [exact Hh4|].
    unfold target_constraints in *. unfold deps in Hd3, Hd4.
    injection Hd3 as Hid3 Hres3. injection Hd4 as Hid4 Hres4.
    by rewrite Hid4, Hres4, Hid3, Hres3.
Qed.

Lemma C1_witness :
  is_target_change (DeviceChange "A") = true ∧
  is_target_change (DeviceChange "B") = true ∧
  inFlight w_streaming = [] ∧
  inFlight (run w_streaming [DeviceChange "B"; DeviceChange "A"])
  = [TargetConstraints "B" 1280 720; TargetConstraints "A" 1280 720] ∧
  target_constraints (run w_streaming [DeviceChange "B"; DeviceChange "A"])
  = Some (TargetConstraints "A" 1280 720).
Proof.
  assert (inFlight w_streaming = []) as Hnone by (vm_compute; reflexivity).
  assert (inFlight (run w_streaming [DeviceChange "B"; DeviceChange "A"])
          = [TargetConstraints "B" 1280 720; TargetConstraints "A" 1280 720])
    as Htwo by (vm_compute; reflexivity).
  pose proof (C1_results_committed_in_arrival_order w_streaming
                (DeviceChange "B") (DeviceChange "A") _ _ 1 1
                eq_refl eq_refl Hnone Htwo) as (Ht & _).
  split; [reflexivity|]. split; [reflexivity|]. split; [exact Hnone|].
  split; [exact Htwo|exact Ht].
Defined.

(** ** C2: at most one unreleased stream *)

(** C2, the failing run.  [camA] is the default target, the user picks
    [camB] before the first call has settled, and the platform answers both
    calls in order.  The second result replaces [streamRef.current] without
    stopping the tracks of the first: two streams are unreleased, and the
    first can no longer be reached through the ref. *)
Theorem C2_two_streams_unreleased_after_race :
  let w := run w_second_target [StreamDelivered 0 1; StreamDelivered 0 1] in
  unreleased w
  = [mkStream (TargetConstraints "A" 1280 720) [1%nat];
     mkStream (TargetConstraints "B" 1280 720) [2%nat]] ∧
  streamRef w = Some (mkStream (TargetConstraints "B" 1280 720) [2%nat]) ∧
  ¬ at_most_one_unreleased w.
Proof.
  cbn zeta. split; [vm_compute; reflexivity|]. split; [vm_compute; reflexivity|].
  unfold at_most_one_unreleased.
  replace (unreleased _)
    with [mkStream (TargetConstraints "A" 1280 720) [1%nat];
          mkStream (TargetConstraints "B" 1280 720) [2%nat]]
    by (vm_compute; reflexivity).
  cbn [length]. lia.
Qed.

(** * Further properties of the component *)

(** ** Closed forms of the effect, its cleanup and a commit *)

Lemma set_liveTracks_id w : set_liveTracks (liveTracks w) w = w.
Proof. by destruct w. Qed.

Lemma captureCleanup_held w :
  captureCleanup w = set_liveTracks (liveTracks w ∖ held_set w) w.
Proof.
  rewrite captureCleanup_eq. unfold held_set. destruct (streamRef w); [done|].
  by rewrite difference_empty_L, set_liveTracks_id.
Qed.

Lemma unmount_held w :
  unmount w = set_mounted false (set_liveTracks (liveTracks w ∖ held_set w) w).
Proof. unfold unmount. by rewrite captureCleanup_held. Qed.

Lemma recapture_eq w :
  captureEffect (captureCleanup w)
  = let w' := set_liveTracks (liveTracks w ∖ held_set w) w in
    if String.eqb (selectedDeviceId w) "" then w' else getStream w'.
Proof.
  rewrite captureEffect_eq, captureCleanup_held. cbn zeta. fields.
  assert (match streamRef w with
          | Some s =>
              set_liveTracks
                (liveTracks w ∖ held_set w ∖ list_to_set (getTracks s))
                (set_liveTracks (liveTracks w ∖ held_set w) w)
          | None => set_liveTracks (liveTracks w ∖ held_set w) w
          end = set_liveTracks (liveTracks w ∖ held_set w) w) as ->; [|done].
  unfold held_set. destruct (streamRef w) as [s|]; [|done].
  rewrite difference_difference_l_L, union_idemp_L. by destruct w.
Qed.

Lemma commit_cases prev w :
  commit prev w = w ∨
  (mounted w = true ∧ selectedResolution w = None ∧
   commit prev w = unmount w) ∨
  (mounted w = true ∧ selectedResolution w ≠ None ∧ deps prev ≠ deps w ∧
   commit prev w = captureEffect (captureCleanup w)).
Proof.
  unfold commit, render_throws.
  destruct (mounted w); cbn [negb]; [|by left].
  case_bool_decide; [by right; left|].
  case_bool_decide; [by left|]. by right; right.
Qed.

(** What running the effect again does to the calls in flight. *)
Lemma recapture_inFlight w :
  inFlight (captureEffect (captureCleanup w))
  = if String.eqb (selectedDeviceId w) "" then inFlight w
    else match selectedResolution w with
         | Some r =>
             (inFlight w
              ++ [TargetConstraints (selectedDeviceId w) (width r) (height r)])%list
         | None => inFlight w
         end.
Proof.
  rewrite recapture_eq. cbn zeta. destruct (String.eqb _ _); [done|].
  unfold getStream, getUserMedia. fields.
  destruct (selectedResolution w) eqn:Hr; fields; rewrite ?Hr; done.
Qed.

Lemma recapture_frame w :
  let w' := captureEffect (captureCleanup w) in
  liveTracks w' = liveTracks w ∖ held_set w ∧
  streamRef w' = streamRef w ∧ mounted w' = mounted w ∧
  selectedDeviceId w' = selectedDeviceId w ∧
  selectedResolution w' = selectedResolution w ∧
  error w' = error w ∧ hasStream w' = hasStream w ∧
  srcObject w' = srcObject w ∧ opened w' = opened w ∧
  nextTrack w' = nextTrack w ∧ initPending w' = initPending w ∧
  devices w' = devices w.
Proof.
  cbn zeta. rewrite recapture_eq. cbn zeta.
  destruct (String.eqb _ _); [done|].
  unfold getStream, getUserMedia. fields.
  destruct (selectedResolution w) eqn:Hr; fields; rewrite ?Hr; done.
Qed.

(** ** What leaves the capture session alone *)

Lemma cap_view_setDevices v w : cap_view (setDevices v w) = cap_view w.
Proof. unfold setDevices. by destruct (mounted w) eqn:Hm. Qed.

Lemma cap_view_setSelectedDeviceId v w :
  cap_view (setSelectedDeviceId v w) = cap_view w.
Proof. unfold setSelectedDeviceId. by destruct (mounted w) eqn:Hm. Qed.

Lemma cap_view_setSelectedResolution v w :
  cap_view (setSelectedResolution v w) = cap_view w.
Proof. unfold setSelectedResolution. by destruct (mounted w) eqn:Hm. Qed.

Lemma cap_view_setError v w : cap_view (setError v w) = cap_view w.
Proof. unfold setError. by destruct (mounted w) eqn:Hm. Qed.

Lemma cap_view_setHasStream v w : cap_view (setHasStream v w) = cap_view w.
Proof. unfold setHasStream. by destruct (mounted w) eqn:Hm. Qed.

Lemma cap_view_setIsFullscreen v w : cap_view (setIsFullscreen v w) = cap_view w.
Proof. unfold setIsFullscreen. by destruct (mounted w) eqn:Hm. Qed.

Lemma cap_view_init_catch err w : cap_view (init_catch err w) = cap_view w.
Proof.
  unfold init_catch, console_error.
  repeat case_match; apply cap_view_setError.
Qed.

Lemma cap_view_getStream_rejected w :
  cap_view (getStream_rejected w) = cap_view w.
Proof.
  unfold getStream_rejected, console_error.
  rewrite cap_view_setHasStream. apply cap_view_setError.
Qed.

Lemma cap_view_toggleFullscreen w : cap_view (toggleFullscreen w) = cap_view w.
Proof. unfold toggleFullscreen. by repeat case_match. Qed.

Lemma cap_view_fire_fullscreenchange w :
  cap_view (fire_fullscreenchange w) = cap_view w.
Proof.
  unfold fire_fullscreenchange, handleFullscreenChange. cbn zeta.
  case_match; [|done]. by rewrite cap_view_setIsFullscreen.
Qed.

Lemma cap_view_settle_fullscreen granted w :
  cap_view (settle_fullscreen granted w) = cap_view w.
Proof.
  unfold settle_fullscreen, requestFullscreen_rejected, console_error.
  repeat case_match; try done; by rewrite cap_view_fire_fullscreenchange.
Qed.

(** The three fullscreen events never touch the capture session. *)
Lemma cap_view_fullscreen_events w ev :
  match ev with
  | ToggleFullscreen | FullscreenSettled _ | FullscreenExternal _ =>
      cap_view (step w ev) = cap_view w
  | _ => True
  end.
Proof.
  destruct ev; try exact I; unfold step.
  - case_match; [|done]. apply cap_view_toggleFullscreen.
  - apply cap_view_settle_fullscreen.
  - case_match; [done|]. by rewrite cap_view_fire_fullscreenchange.
Qed.

(** The device catalog opens one stream and releases it at once. *)
Lemma init_capture_frame o w :
  let w' := getInitialPermissionAndDevices o w in
  liveTracks w' ⊆ liveTracks w ∧ streamRef w' = streamRef w ∧
  inFlight w' = inFlight w ∧ mounted w' = mounted w.
Proof.
  assert (∀ n, let w1 := probe_granted n w in
    liveTracks w1 ⊆ liveTracks w ∧ streamRef w1 = streamRef w ∧
    inFlight w1 = inFlight w ∧ mounted w1 = mounted w) as Hprobe.
  { intros n. cbn zeta. rewrite probe_granted_eq. fields.
    split; [|done].
    intros t [[?|?]%elem_of_union ?]%elem_of_difference; done. }
  assert (∀ w1 w2, cap_view w2 = cap_view w1 →
    liveTracks w1 ⊆ liveTracks w ∧ streamRef w1 = streamRef w ∧
    inFlight w1 = inFlight w ∧ mounted w1 = mounted w →
    liveTracks w2 ⊆ liveTracks w ∧ streamRef w2 = streamRef w ∧
    inFlight w2 = inFlight w ∧ mounted w2 = mounted w) as Hview.
  { unfold cap_view. intros w1 w2 [= -> -> -> _ _ ->]. done. }
  destruct o as [err|n err|n allDevices]; cbn zeta;
    cbn [getInitialPermissionAndDevices].
  - eapply Hview; [apply cap_view_init_catch|]. done.
  - eapply Hview; [apply cap_view_init_catch|]. apply Hprobe.
  - cbn zeta. case_match.
    + eapply Hview; [apply cap_view_setError|].
      eapply Hview; [apply cap_view_setDevices|]. apply Hprobe.
    + eapply Hview; [apply cap_view_setError|].
      eapply Hview; [apply cap_view_setSelectedDeviceId|].
      eapply Hview; [apply cap_view_setDevices|]. apply Hprobe.
Qed.

(** ** The resource invariant of race-free runs *)

Lemma single_holder_frame w w' :
  liveTracks w' ⊆ liveTracks w → streamRef w' = streamRef w →
  inFlight w' = inFlight w →
  single_holder w → single_holder w'.
Proof.
  unfold single_holder, held_set. intros Hl -> -> (Hheld & Hlen & Hnone).
  split; [by etrans|]. split; [done|].
  intros Hne. specialize (Hnone Hne). rewrite Hnone in Hl.
  apply set_eq. intros t. split; [apply Hl|by intros ?%not_elem_of_empty].
Qed.

Lemma single_holder_view w w' :
  cap_view w' = cap_view w → single_holder w → single_holder w'.
Proof.
  unfold cap_view. intros [= Hl Hs Hq _ _ _].
  apply single_holder_frame; [by rewrite Hl|done..].
Qed.

Lemma single_holder_released w w' :
  liveTracks w' = liveTracks w ∖ held_set w → streamRef w' = streamRef w →
  (length (inFlight w') ≤ 1)%nat →
  single_holder w → single_holder w'.
Proof.
  unfold single_holder. intros Hl Hs Hlen (Hheld & _ & _).
  assert (liveTracks w' = ∅) as Hnone.
  { rewrite Hl. apply set_eq. intros t.
    split; [|by intros ?%not_elem_of_empty].
    intros [Hin Hnot]%elem_of_difference. exfalso. by apply Hnot, Hheld. }
  rewrite Hnone. split; [apply empty_subseteq|]. done.
Qed.

(** A commit keeps the invariant when it does not start a second call. *)
Lemma single_holder_commit prev w :
  inFlight w = [] ∨ deps prev = deps w →
  single_holder w → single_holder (commit prev w).
Proof.
  intros Hquiet Hinv.
  destruct (commit_cases prev w)
    as [->|[(_ & _ & ->)|(_ & _ & Hdeps & ->)]]; [done|..].
  - rewrite unmount_held.
    apply (single_holder_released w); [done|done| |done]. apply Hinv.
  - destruct Hquiet as [Hquiet|?]; [|done].
    destruct (recapture_frame w) as (Hl & Hs & _).
    apply (single_holder_released w); [done|done| |done].
    rewrite recapture_inFlight, Hquiet.
    repeat case_match; cbn; lia.
Qed.

Lemma single_holder_step w ev :
  (runs_capture_effect ev = true → inFlight w = []) →
  single_holder w → single_holder (step w ev).
Proof.
  intros Hquiet Hinv.
  pose proof (cap_view_fullscreen_events w ev) as Hfs.
  destruct ev as [o|v|v|k n|k| |granted|e|];
    try (by apply (single_holder_view w)); unfold step.
  - case_match; [|done]. specialize (Hquiet eq_refl).
    destruct (init_capture_frame o (set_initPending false w))
      as (Hl & Hs & Hq & _).
    apply single_holder_commit; [left; by rewrite Hq|].
    by apply (single_holder_frame w).
  - case_match; [|done]. specialize (Hquiet eq_refl).
    pose proof (cap_view_setSelectedDeviceId v w) as Hv.
    apply single_holder_commit; [left|by apply (single_holder_view w)].
    unfold handleDeviceChange. unfold cap_view in Hv.
    injection Hv as _ _ -> _ _ _. done.
  - case_match; [|done]. specialize (Hquiet eq_refl).
    pose proof (cap_view_setSelectedResolution
                  (JS.index RESOLUTIONS (JS.parseInt v)) w) as Hv.
    apply single_holder_commit; [left|by apply (single_holder_view w)].
    unfold handleResolutionChange. unfold cap_view in Hv.
    injection Hv as _ _ -> _ _ _. done.
  - destruct (inFlight w !! k) as [c|] eqn:Hk; [|done].
    destruct Hinv as (Hheld & Hlen & Hnone).
    assert (inFlight w ≠ []) as Hne by (intros Hq; by rewrite Hq in Hk).
    specialize (Hnone Hne).
    assert (delete k (inFlight w) = []) as Hdel.
    { destruct (inFlight w) as [|c0 [|c1 q]]; [done| |cbn in Hlen; lia].
      by destruct k. }
    unfold open_stream. cbv beta iota zeta.
    set (s := mkStream c _). set (w1 := set_nextTrack _ _).
    assert (cap_view (getStream_resolved s w1)
            = (liveTracks w ∪ list_to_set (getTracks s), Some s,
               [], opened w1, nextTrack w1, mounted w)) as Hv.
    { unfold getStream_resolved. cbn zeta. subst w1. fields.
      destruct (mounted w) eqn:Hm; [rewrite cap_view_setHasStream|];
        unfold cap_view; fields; by rewrite Hdel, ?Hm. }
    unfold cap_view in Hv. injection Hv as Hl1 Hs1 Hq1 _ _ _.
    apply single_holder_commit; [by left|].
    unfold single_holder, held_set. rewrite Hl1, Hs1, Hq1, Hnone.
    split; [by rewrite union_empty_l_L|]. split; [cbn; lia|done].
  - destruct (inFlight w !! k) as [c|] eqn:Hk; [|done].
    destruct Hinv as (Hheld & Hlen & Hnone).
    assert (inFlight w ≠ []) as Hne by (intros Hq; by rewrite Hq in Hk).
    specialize (Hnone Hne).
    assert (delete k (inFlight w) = []) as Hdel.
    { destruct (inFlight w) as [|c0 [|c1 q]]; [done| |cbn in Hlen; lia].
      by destruct k. }
    pose proof (cap_view_getStream_rejected
                  (set_inFlight (delete k (inFlight w)) w)) as Hv.
    unfold cap_view in Hv. fields. injection Hv as Hl1 Hs1 Hq1 _ _ _.
    apply single_holder_commit; [left; by rewrite Hq1|].
    unfold single_holder, held_set. rewrite Hl1, Hs1, Hq1, Hnone, Hdel.
    split; [apply empty_subseteq|]. split; [cbn; lia|done].
  - case_match; [|done]. rewrite unmount_held.
    apply (single_holder_released w); [done|done| |done]. apply Hinv.
Qed.

Lemma single_holder_run w evs :
  race_free w evs = true → single_holder w → single_holder (run w evs).
Proof.
  revert w. induction evs as [|ev evs IH]; intros w Hfree Hinv; [done|].
  cbn [race_free] in Hfree. apply andb_true_iff in Hfree as [Hev Hrest].
  unfold run. cbn [foldl]. apply IH; [exact Hrest|].
  apply single_holder_step; [|exact Hinv].
  intros Hruns. rewrite Hruns in Hev. cbn in Hev.
  by apply bool_decide_eq_true in Hev.
Qed.

Lemma single_holder_mount supported exitSupported :
  single_holder (App_mount supported exitSupported).
Proof.
  destruct supported; (split; [|split]); cbn; try done; try lia.
Qed.

(** ** Fresh track ids *)

Lemma commit_nextTrack prev w : nextTrack (commit prev w) = nextTrack w.
Proof. frame_commit. Qed.

Lemma tracks_fresh_frame w w' :
  opened w' = opened w → nextTrack w' = nextTrack w →
  streamRef w' = streamRef w →
  tracks_fresh w → tracks_fresh w'.
Proof. unfold tracks_fresh. by intros -> -> ->. Qed.

Lemma tracks_fresh_view w w' :
  cap_view w' = cap_view w → tracks_fresh w → tracks_fresh w'.
Proof.
  unfold cap_view. intros [= _ Hs _ Ho Hn _]. by apply tracks_fresh_frame.
Qed.

Lemma tracks_fresh_commit prev w :
  tracks_fresh w → tracks_fresh (commit prev w).
Proof.
  apply tracks_fresh_frame;
    [apply commit_opened|apply commit_nextTrack|apply commit_streamRef].
Qed.

(** The platform opens a stream of [n] fresh tracks; the ref keeps its
    stream or takes the new one. *)
Lemma tracks_fresh_open w w' c n :
  opened w' = (opened w ++ [mkStream c (seq (nextTrack w) n)])%list →
  nextTrack w' = (nextTrack w + n)%nat →
  streamRef w' = streamRef w
  ∨ streamRef w' = Some (mkStream c (seq (nextTrack w) n)) →
  tracks_fresh w → tracks_fresh w'.
Proof.
  unfold tracks_fresh. intros -> -> Hs (Hnodup & Hbound & Href).
  rewrite fmap_app, concat_app. cbn [fmap list_fmap concat getTracks].
  rewrite app_nil_r. split; [|split].
  - apply NoDup_app. split; [done|]. split; [|apply NoDup_seq].
    intros t Hold Hnew%elem_of_seq. specialize (Hbound t Hold). lia.
  - intros t [Hold|Hnew%elem_of_seq]%elem_of_app; [|lia].
    specialize (Hbound t Hold). lia.
  - intros s Hs'. apply elem_of_app. destruct Hs as [Hs|Hs]; rewrite Hs in Hs'.
    + left. by apply Href.
    + right. injection Hs' as <-. apply list_elem_of_singleton. done.
Qed.

Lemma tracks_fresh_step w ev : tracks_fresh w → tracks_fresh (step w ev).
Proof.
  intros Hinv.
  pose proof (cap_view_fullscreen_events w ev) as Hfs.
  destruct ev as [o|v|v|k n|k| |granted|e|];
    try (by apply (tracks_fresh_view w)); unfold step.
  - case_match; [|done]. apply tracks_fresh_commit.
    assert (∀ n, tracks_fresh (probe_granted n (set_initPending false w)))
      as Hprobe.
    { intros n. rewrite probe_granted_eq.
      eapply (tracks_fresh_open w _ ProbeConstraints n); fields;
        [done|done|by left|done]. }
    destruct o as [err|n err|n allDevices];
      cbn [getInitialPermissionAndDevices].
    + eapply tracks_fresh_view; [apply cap_view_init_catch|].
      by apply (tracks_fresh_frame w).
    + eapply tracks_fresh_view; [apply cap_view_init_catch|]. apply Hprobe.
    + cbn zeta. case_match.
      * eapply tracks_fresh_view; [apply cap_view_setError|].
        eapply tracks_fresh_view; [apply cap_view_setDevices|]. apply Hprobe.
      * eapply tracks_fresh_view; [apply cap_view_setError|].
        eapply tracks_fresh_view; [apply cap_view_setSelectedDeviceId|].
        eapply tracks_fresh_view; [apply cap_view_setDevices|]. apply Hprobe.
  - case_match; [|done]. apply tracks_fresh_commit.
    eapply tracks_fresh_view; [apply cap_view_setSelectedDeviceId|done].
  - case_match; [|done]. apply tracks_fresh_commit.
    eapply tracks_fresh_view; [apply cap_view_setSelectedResolution|done].
  - destruct (inFlight w !! k) as [c|] eqn:Hk; [|done].
    unfold open_stream. cbv beta iota zeta. apply tracks_fresh_commit.
    set (s := mkStream c _). set (w1 := set_nextTrack _ _).
    assert (opened (getStream_resolved s w1) = (opened w ++ [s])%list ∧
            nextTrack (getStream_resolved s w1) = (nextTrack w + n)%nat ∧
            streamRef (getStream_resolved s w1) = Some s) as (Ho & Hn & Hs).
    { unfold getStream_resolved. cbn zeta. subst w1. fields.
      destruct (mounted w) eqn:Hm; [|done].
      unfold setHasStream. fields. by rewrite Hm. }
    eapply (tracks_fresh_open w _ c n); [exact Ho|exact Hn|by right|done].
  - destruct (inFlight w !! k) as [c|] eqn:Hk; [|done].
    apply tracks_fresh_commit.
    eapply tracks_fresh_view; [apply cap_view_getStream_rejected|].
    by apply (tracks_fresh_frame w).
  - case_match; [|done]. rewrite unmount_held.
    by apply (tracks_fresh_frame w).
Qed.

Lemma tracks_fresh_run w evs : tracks_fresh w → tracks_fresh (run w evs).
Proof.
  revert w. induction evs as [|ev evs IH]; intros w Hinv; [done|].
  unfold run. cbn [foldl]. apply IH. by apply tracks_fresh_step.
Qed.

Lemma tracks_fresh_mount supported exitSupported :
  tracks_fresh (App_mount supported exitSupported).
Proof.
  destruct supported; (split; [|split]); cbn; try done;
    first [apply NoDup_nil_2 | by intros ? ?%elem_of_nil].
Qed.

(** ** From the two invariants to at most one unreleased stream *)

Lemma filter_all_false {A} (p : A → bool) (l : list A) :
  (∀ x, x ∈ l → p x = false) → List.filter p l = [].
Proof.
  induction l as [|x l IH]; intros Hall; [done|]. cbn [List.filter].
  rewrite (Hall x) by left. apply IH. intros y Hy. apply Hall. by right.
Qed.

Lemma elem_of_concat_tracks (l : list MediaStream) s t :
  s ∈ l → t ∈ getTracks s → t ∈ concat (getTracks <$> l).
Proof.
  induction l as [|s0 l IH]; [by intros ?%elem_of_nil|].
  intros [->|Hin]%elem_of_cons Ht; cbn; apply elem_of_app; [by left|].
  right. by apply IH.
Qed.

(** Among streams with pairwise disjoint tracks, those sharing a track with
    one given stream of the list are at most one. *)
Lemma filter_at_most_one (p : MediaStream → bool) (l : list MediaStream)
    (T : list nat) :
  NoDup (concat (getTracks <$> l)) →
  (∃ s, s ∈ l ∧ ∀ t, t ∈ T → t ∈ getTracks s) →
  (∀ s, s ∈ l → p s = true → ∃ t, t ∈ getTracks s ∧ t ∈ T) →
  (length (List.filter p l) ≤ 1)%nat.
Proof.
  induction l as [|s0 l IH]; intros Hnodup Howner Hshare; [cbn; lia|].
  cbn [fmap list_fmap concat] in Hnodup.
  apply NoDup_app in Hnodup as (_ & Hdisj & Hnodup).
  assert ((∀ t, t ∈ T → t ∈ getTracks s0) → List.filter p l = []) as Hhead.
  { intros HT. apply filter_all_false. intros s Hs.
    destruct (p s) eqn:Hp; [|done]. exfalso.
    assert (s ∈ s0 :: l) as Hs' by (by right).
    destruct (Hshare s Hs' Hp) as (t & Hts & HtT).
    apply (Hdisj t (HT t HtT)). by apply (elem_of_concat_tracks l s). }
  destruct Howner as (sref & [->|Hin]%elem_of_cons & HT).
  - cbn [List.filter]. rewrite (Hhead HT). destruct (p s0); cbn; lia.
  - cbn [List.filter]. destruct (p s0) eqn:Hp0.
    + exfalso. assert (s0 ∈ s0 :: l) as Hs0 by left.
      destruct (Hshare s0 Hs0 Hp0) as (t & Hts & HtT).
      apply (Hdisj t Hts). apply (elem_of_concat_tracks l sref); [done|].
      by apply HT.
    + apply IH; [done|by exists sref|].
      intros s Hs. apply Hshare. by right.
Qed.

Lemma at_most_one_of_invariants w :
  single_holder w → tracks_fresh w → at_most_one_unreleased w.
Proof.
  intros (Hheld & _ & _) (Hnodup & _ & Href).
  unfold at_most_one_unreleased, unreleased.
  assert (∀ s, is_unreleased w s = true →
               ∃ t, t ∈ getTracks s ∧ t ∈ liveTracks w) as Hlive.
  { intros s Hs. unfold is_unreleased in Hs.
    apply existsb_exists in Hs as (t & Ht%list_elem_of_In & Hl).
    exists t. split; [done|]. by apply bool_decide_eq_true in Hl. }
  unfold held_set in Hheld. destruct (streamRef w) as [sref|] eqn:Hs.
  - apply (filter_at_most_one _ _ (getTracks sref)); [done| |].
    + exists sref. split; [by apply Href|done].
    + intros s _ Hp. destruct (Hlive s Hp) as (t & Hts & Htl).
      exists t. split; [done|].
      apply (elem_of_list_to_set (C:=gset nat)). by apply Hheld.
  - rewrite filter_all_false; [cbn; lia|]. intros s _.
    destruct (is_unreleased w s) eqn:Hp; [|done]. exfalso.
    destruct (Hlive s Hp) as (t & _ & Htl).
    by apply Hheld, not_elem_of_empty in Htl.
Qed.

(** ** X1, X2: no leak without a race *)

(** X1.  In every run from the first render in which the target never
    changes while an acquisition is in flight: every live track is a track
    of [streamRef.current], at most one acquisition is in flight, no track
    is live while one is, and at most one stream is unreleased. *)
Theorem X1_race_free_runs_hold_one_stream :
  ∀ (supported exitSupported : bool) (evs : list Event),
    race_free (App_mount supported exitSupported) evs = true →
    let w := run (App_mount supported exitSupported) evs in
    single_holder w ∧ at_most_one_unreleased w.
Proof.
  intros supported exitSupported evs Hfree. cbn zeta.
  assert (single_holder (run (App_mount supported exitSupported) evs)) as Hs.
  { apply single_holder_run; [done|apply single_holder_mount]. }
  split; [exact Hs|]. apply at_most_one_of_invariants; [exact Hs|].
  apply tracks_fresh_run, tracks_fresh_mount.
Qed.

Lemma X1_witness :
  race_free (App_mount true true) session_without_race = true ∧
  unreleased (run (App_mount true true) session_without_race)
  = [mkStream (TargetConstraints "B" 1280 720) [2%nat]] ∧
  at_most_one_unreleased (run (App_mount true true) session_without_race).
Proof.
  assert (race_free (App_mount true true) session_without_race = true)
    as Hfree by (vm_compute; reflexivity).
  split; [exact Hfree|]. split; [vm_compute; reflexivity|].
  apply (X1_race_free_runs_hold_one_stream true true session_without_race
           Hfree).
Defined.

(** X2.  After a run without a race, unmounting the component leaves no
    live track at all. *)
Theorem X2_unmount_after_race_free_run_releases_all :
  ∀ (supported exitSupported : bool) (evs : list Event),
    race_free (App_mount supported exitSupported) evs = true →
    let w := run (App_mount supported exitSupported) evs in
    mounted w = true →
    liveTracks (step w Unmount) = ∅.
Proof.
  intros supported exitSupported evs Hfree w Hm.
  assert (single_holder w) as (Hheld & _).
  { apply single_holder_run; [done|apply single_holder_mount]. }
  unfold step. rewrite Hm, unmount_held. fields.
  apply set_eq. intros t. split; [|by intros ?%not_elem_of_empty].
  intros [Hin Hnot]%elem_of_difference. exfalso. by apply Hnot, Hheld.
Qed.

Lemma X2_witness :
  race_free (App_mount true true) session_without_race = true ∧
  mounted (run (App_mount true true) session_without_race) = true ∧
  liveTracks (run (App_mount true true) session_without_race) = {[2%nat]} ∧
  liveTracks (step (run (App_mount true true) session_without_race) Unmount)
  = ∅.
Proof.
  assert (race_free (App_mount true true) session_without_race = true)
    as Hfree by (vm_compute; reflexivity).
  assert (mounted (run (App_mount true true) session_without_race) = true)
    as Hm by (vm_compute; reflexivity).
  split; [exact Hfree|]. split; [exact Hm|]. split; [vm_compute; reflexivity|].
  exact (X2_unmount_after_race_free_run_releases_all true true
           session_without_race Hfree Hm).
Defined.

(** ** X3: the mirror follows the platform *)

Lemma commit_mounted prev w :
  mounted (commit prev w) = true → mounted w = true.
Proof.
  destruct (commit_cases prev w)
    as [->|[(_ & _ & ->)|(Hm & _)]]; [done| |done].
  rewrite unmount_held. fields. discriminate.
Qed.

Lemma cap_view_mounted w w' : cap_view w' = cap_view w → mounted w' = mounted w.
Proof. unfold cap_view. by intros [= _ _ _ _ _ ->]. Qed.

(** A component that is mounted after an event was mounted before it. *)
Lemma mounted_step w ev : mounted (step w ev) = true → mounted w = true.
Proof.
  pose proof (cap_view_fullscreen_events w ev) as Hfs.
  destruct ev as [o|v|v|k n|k| |granted|e|];
    try (by rewrite (cap_view_mounted _ _ Hfs)); unfold step.
  - case_match; [|done]. intros Hm%commit_mounted.
    destruct (init_capture_frame o (set_initPending false w))
      as (_ & _ & _ & Heq). by rewrite Heq in Hm.
  - destruct (mounted w) eqn:Hmw; [done|intros; congruence].
  - destruct (mounted w) eqn:Hmw; [done|intros; congruence].
  - case_match; [|done]. unfold open_stream. cbv beta iota zeta.
    intros Hm%commit_mounted. unfold getStream_resolved in Hm.
    cbn zeta in Hm. fields.
    destruct (mounted w) eqn:Hmw; [done|]. fields. congruence.
  - case_match; [|done]. intros Hm%commit_mounted.
    by rewrite (cap_view_mounted _ _ (cap_view_getStream_rejected _)) in Hm.
  - destruct (mounted w) eqn:Hmw; [done|intros; congruence].
Qed.

Lemma in_sync_view w w' : fs_view w' = fs_view w → in_sync w → in_sync w'.
Proof.
  unfold fs_view, in_sync, has_fullscreen_element.
  by intros [= -> _ ->].
Qed.

Lemma in_sync_fire w :
  mounted w = true → in_sync (fire_fullscreenchange w).
Proof.
  intros Hm. destruct (fire_fullscreenchange_spec w) as (_ & He & _ & Hi).
  unfold in_sync. rewrite Hi, Hm. unfold has_fullscreen_element. by rewrite He.
Qed.

Lemma in_sync_step w ev :
  (mounted w = true → in_sync w) →
  mounted (step w ev) = true → in_sync (step w ev).
Proof.
  intros Hinv Hm'. pose proof (mounted_step w ev Hm') as Hm.
  specialize (Hinv Hm).
  pose proof (fs_view_step_other w ev) as Hother.
  destruct ev as [o|v|v|k n|k| |granted|e|];
    try (by apply (in_sync_view w)); unfold step.
  - unfold settle_fullscreen, requestFullscreen_rejected, console_error.
    destruct (fullscreenRequests w) as [|[e|] rest]; [done|..].
    + destruct granted; [|done]. fields.
      case_bool_decide; [done|]. by apply in_sync_fire.
    + destruct (granted && _); [|done]. by apply in_sync_fire.
  - case_bool_decide; [done|]. by apply in_sync_fire.
Qed.

(** X3.  At every point of every run from the first render, while the
    component is mounted the mirror [isFullscreen] equals
    [!!document.fullscreenElement]: whatever changed the fullscreen element
    (the toggle, the escape key, another element), the listener has brought
    the mirror along. *)
Theorem X3_mirror_in_sync_while_mounted :
  ∀ (supported exitSupported : bool) (evs : list Event),
    let w := run (App_mount supported exitSupported) evs in
    mounted w = true → in_sync w.
Proof.
  intros supported exitSupported evs. cbn zeta.
  induction evs as [|ev evs IH] using rev_ind.
  - intros _. by destruct supported.
  - unfold run in *. rewrite foldl_app. cbn [foldl]. by apply in_sync_step.
Qed.

Lemma X3_witness :
  let evs := [InitSettled (Enumerated 1 [camA]); StreamDelivered 0 1;
              ToggleFullscreen; FullscreenSettled true;
              FullscreenExternal None; FullscreenExternal (Some (otherElement 3))]
  in
  mounted (run (App_mount true true) evs) = true ∧
  isFullscreen (run (App_mount true true) evs) = true ∧
  in_sync (run (App_mount true true) evs).
Proof.
  cbn zeta. split; [vm_compute; reflexivity|]. split; [vm_compute; reflexivity|].
  apply (X3_mirror_in_sync_while_mounted true true). vm_compute. reflexivity.
Defined.

(** ** X4: the two controllers do not touch each other's state *)

Lemma session_view_setIsFullscreen v w :
  session_view (setIsFullscreen v w) = session_view w.
Proof. unfold setIsFullscreen. by destruct (mounted w). Qed.

Lemma session_view_toggleFullscreen w :
  session_view (toggleFullscreen w) = session_view w.
Proof. unfold toggleFullscreen. by repeat case_match. Qed.

Lemma session_view_fire_fullscreenchange w :
  session_view (fire_fullscreenchange w) = session_view w.
Proof.
  unfold fire_fullscreenchange, handleFullscreenChange. cbn zeta.
  case_match; [|done]. by rewrite session_view_setIsFullscreen.
Qed.

Lemma session_view_settle_fullscreen granted w :
  session_view (settle_fullscreen granted w) = session_view w.
Proof.
  unfold settle_fullscreen, requestFullscreen_rejected, console_error.
  repeat case_match; try done; by rewrite session_view_fire_fullscreenchange.
Qed.

Lemma session_view_fullscreen_event w ev :
  is_fullscreen_event ev = true →
  session_view (step w ev) = session_view w.
Proof.
  destruct ev; try discriminate; intros _; unfold step.
  - case_match; [|done]. apply session_view_toggleFullscreen.
  - apply session_view_settle_fullscreen.
  - case_match; [done|]. by rewrite session_view_fire_fullscreenchange.
Qed.

(** X4.  A fullscreen event (the toggle, the platform settling a request,
    granted or refused, or changing the fullscreen element on its own) leaves
    the whole capture session as it is: catalog, selection, error banner,
    streams, tracks and calls in flight.  Every other event leaves the
    fullscreen element, the mirror and the count of notifications as they
    are. *)
Theorem X4_fullscreen_and_capture_are_independent :
  ∀ (w : World) (ev : Event),
    (is_fullscreen_event ev = true →
     session_view (step w ev) = session_view w) ∧
    (is_fullscreen_event ev = false ∨ ev = ToggleFullscreen →
     fs_view (step w ev) = fs_view w).
Proof.
  intros w ev. split; [apply session_view_fullscreen_event|].
  pose proof (fs_view_step_other w ev) as Hother.
  intros [Hev| ->]; [|exact Hother].
  by destruct ev.
Qed.

Lemma X4_witness :
  is_fullscreen_event (FullscreenSettled false) = true ∧
  session_view
    (step (step w_streaming ToggleFullscreen) (FullscreenSettled false))
  = session_view (step w_streaming ToggleFullscreen) ∧
  is_fullscreen_event (DeviceChange "B") = false ∧
  fs_view (step w_streaming (DeviceChange "B")) = fs_view w_streaming.
Proof.
  destruct (X4_fullscreen_and_capture_are_independent
              (step w_streaming ToggleFullscreen) (FullscreenSettled false))
    as (Hfs & _).
  destruct (X4_fullscreen_and_capture_are_independent
              w_streaming (DeviceChange "B")) as (_ & Hcap).
  split; [reflexivity|]. split; [apply Hfs; reflexivity|].
  split; [reflexivity|]. apply Hcap. left. reflexivity.
Defined.

(** ** X5, X6: the error banner stays *)

Lemma commit_initPending prev w : initPending (commit prev w) = initPending w.
Proof. frame_commit. Qed.

Lemma session_view_fields w w' :
  session_view w' = session_view w →
  devices w' = devices w ∧ error w' = error w ∧
  initPending w' = initPending w ∧ mounted w' = mounted w ∧
  selectedResolution w' = selectedResolution w ∧ inFlight w' = inFlight w ∧
  hasStream w' = hasStream w.
Proof. unfold session_view. by intros [= -> _ -> -> -> _ -> _ _ _ _ -> ->]. Qed.

Lemma truthy_msg_stream_start : truthy (Some msg_stream_start) = true.
Proof. reflexivity. Qed.

(** Once the catalog has settled, an event keeps the error or replaces it by
    the stream-start message; the catalog itself no longer changes. *)
Lemma settled_step w ev :
  initPending w = false →
  initPending (step w ev) = false ∧
  devices (step w ev) = devices w ∧
  (error (step w ev) = error w ∨ error (step w ev) = Some msg_stream_start).
Proof.
  intros Hsettled.
  destruct (is_fullscreen_event ev) eqn:Hfs.
  { destruct (session_view_fields _ _ (session_view_fullscreen_event w ev Hfs))
      as (-> & -> & -> & _). by repeat split; [..|left]. }
  destruct ev as [o|v|v|k n|k| | | |]; try discriminate; unfold step.
  - rewrite Hsettled. by repeat split; [..|left].
  - destruct (mounted w) eqn:Hm; [|by repeat split; [..|left]].
    rewrite commit_initPending, commit_devices, commit_error.
    unfold handleDeviceChange, setSelectedDeviceId. rewrite Hm.
    by repeat split; [..|left].
  - destruct (mounted w) eqn:Hm; [|by repeat split; [..|left]].
    rewrite commit_initPending, commit_devices, commit_error.
    unfold handleResolutionChange, setSelectedResolution. rewrite Hm.
    by repeat split; [..|left].
  - case_match; [|by repeat split; [..|left]].
    unfold open_stream. cbv beta iota zeta.
    rewrite commit_initPending, commit_devices, commit_error.
    unfold getStream_resolved, setHasStream. cbn zeta. fields.
    destruct (mounted w) eqn:Hm; fields; rewrite ?Hm;
      by repeat split; [..|left].
  - case_match; [|by repeat split; [..|left]].
    rewrite commit_initPending, commit_devices, commit_error.
    unfold getStream_rejected, console_error, setHasStream, setError. fields.
    destruct (mounted w) eqn:Hm; fields; rewrite ?Hm; fields.
    + by repeat split; [..|right].
    + by repeat split; [..|left].
  - destruct (mounted w) eqn:Hm; [|by repeat split; [..|left]].
    rewrite unmount_held. by repeat split; [..|left].
Qed.

Lemma settled_run w evs :
  initPending w = false → truthy (error w) = true →
  initPending (run w evs) = false ∧ devices (run w evs) = devices w ∧
  truthy (error (run w evs)) = true.
Proof.
  revert w. induction evs as [|ev evs IH]; intros w Hsettled Herr; [done|].
  unfold run. cbn [foldl].
  destruct (settled_step w ev Hsettled) as (Hp & Hd & He).
  destruct (IH (step w ev) Hp) as (Hp' & Hd' & He').
  { destruct He as [->| ->]; [done|reflexivity]. }
  unfold run in *. by rewrite Hd' in *.
Qed.

(** X5.  Once the catalog has settled and an error is up, no event takes it
    down: after any further events the banner is shown, both selectors are
    disabled and the video with its fullscreen button is hidden, even when
    an acquisition succeeds in between. *)
Theorem X5_error_banner_is_never_cleared :
  ∀ (w : World) (evs : list Event),
    initPending w = false →
    truthy (error w) = true →
    let w' := run w evs in
    App_banner_shown w' = true ∧
    App_controls_disabled w' = true ∧
    App_video_shown w' = false.
Proof.
  intros w evs Hsettled Herr. cbn zeta.
  destruct (settled_run w evs Hsettled Herr) as (_ & _ & He).
  unfold App_banner_shown, App_controls_disabled, App_video_shown.
  rewrite He. split; [done|]. split; [done|]. by rewrite andb_false_r.
Qed.

Lemma X5_witness :
  let w := step w_first_target (StreamRefused 0) in
  let evs := [DeviceChange "B"; StreamDelivered 0 1] in
  initPending w = false ∧ truthy (error w) = true ∧
  hasStream (run w evs) = true ∧
  App_video_shown (run w evs) = false.
Proof.
  cbn zeta.
  assert (initPending (step w_first_target (StreamRefused 0)) = false)
    as Hp by (vm_compute; reflexivity).
  assert (truthy (error (step w_first_target (StreamRefused 0))) = true)
    as He by (vm_compute; reflexivity).
  split; [exact Hp|]. split; [exact He|]. split; [vm_compute; reflexivity|].
  apply (X5_error_banner_is_never_cleared _
           [DeviceChange "B"; StreamDelivered 0 1] Hp He).
Defined.

(** X6.  On a platform without [navigator.mediaDevices.getUserMedia] the
    first effect reports the unsupported-browser error and never probes:
    through every run the catalog stays empty, the banner stays up, the
    selectors stay disabled and the video stays hidden. *)
Theorem X6_unsupported_platform_never_recovers :
  ∀ (exitSupported : bool) (evs : list Event),
    let w := run (App_mount false exitSupported) evs in
    error (App_mount false exitSupported) = Some msg_unsupported ∧
    initPending w = false ∧
    devices w = [] ∧
    App_banner_shown w = true ∧
    App_controls_disabled w = true ∧
    App_video_shown w = false.
Proof.
  intros exitSupported evs. cbn zeta.
  destruct (settled_run (App_mount false exitSupported) evs eq_refl eq_refl)
    as (Hp & Hd & He).
  unfold App_banner_shown, App_controls_disabled, App_video_shown.
  rewrite He, Hd, Hp. by rewrite andb_false_r.
Qed.

(** ** X7: what the catalog lists *)

Lemma devices_getInitialPermissionAndDevices o w :
  devices (getInitialPermissionAndDevices o w) = devices w ∨
  ∃ allDevices,
    devices (getInitialPermissionAndDevices o w)
    = filter (λ device, kind device = videoinput) allDevices.
Proof.
  destruct o as [err|n err|n allDevices]; cbn [getInitialPermissionAndDevices].
  - left. unfold init_catch, console_error, setError.
    repeat case_match; done.
  - left. rewrite probe_granted_eq.
    unfold init_catch, console_error, setError. fields.
    repeat case_match; done.
  - cbn zeta. rewrite probe_granted_eq.
    unfold setError, setSelectedDeviceId, setDevices. fields.
    destruct (mounted w) eqn:Hm; fields; rewrite ?Hm; fields; rewrite ?Hm;
      [right; exists allDevices|left]; by case_match.
Qed.

Lemma devices_step w ev :
  devices (step w ev) = devices w ∨
  ∃ allDevices,
    devices (step w ev) = filter (λ device, kind device = videoinput) allDevices.
Proof.
  destruct (initPending w) eqn:Hp;
    [|left; by destruct (settled_step w ev Hp) as (_ & -> & _)].
  destruct (is_fullscreen_event ev) eqn:Hfs.
  { left. by destruct (session_view_fields _ _
                         (session_view_fullscreen_event w ev Hfs)) as (-> & _). }
  destruct ev as [o|v|v|k n|k| | | |]; try discriminate; unfold step.
  - rewrite Hp, commit_devices.
    apply (devices_getInitialPermissionAndDevices o (set_initPending false w)).
  - left. destruct (mounted w) eqn:Hm; [|done]. rewrite commit_devices.
    unfold handleDeviceChange, setSelectedDeviceId. by rewrite Hm.
  - left. destruct (mounted w) eqn:Hm; [|done]. rewrite commit_devices.
    unfold handleResolutionChange, setSelectedResolution. by rewrite Hm.
  - left. case_match; [|done]. unfold open_stream. cbv beta iota zeta.
    rewrite commit_devices. unfold getStream_resolved, setHasStream.
    cbn zeta. fields. destruct (mounted w) eqn:Hm; fields; by rewrite ?Hm.
  - left. case_match; [|done]. rewrite commit_devices.
    unfold getStream_rejected, console_error, setHasStream, setError. fields.
    destruct (mounted w) eqn:Hm; fields; by rewrite ?Hm.
  - left. destruct (mounted w) eqn:Hm; [|done]. by rewrite unmount_held.
Qed.

(** X7.  Whatever the platform enumerates and whatever happens afterwards,
    the catalog only ever lists devices of kind [videoinput]. *)
Theorem X7_catalog_lists_only_video_inputs :
  ∀ (supported exitSupported : bool) (evs : list Event),
    Forall (λ device, kind device = videoinput)
      (devices (run (App_mount supported exitSupported) evs)).
Proof.
  intros supported exitSupported evs.
  induction evs as [|ev evs IH] using rev_ind.
  - destruct supported; apply Forall_nil_2.
  - unfold run in *. rewrite foldl_app. cbn [foldl].
    destruct (devices_step (foldl step (App_mount supported exitSupported) evs)
                ev) as [->|(allDevices & ->)]; [exact IH|].
    apply Forall_forall. intros device Hin.
    by apply list_elem_of_filter in Hin as [Hkind _].
Qed.

(** ** X8: after the component is gone *)

Lemma length_delete_le {A} (l : list A) k : (length (delete k l) ≤ length l)%nat.
Proof.
  rewrite delete_take_drop, length_app, length_take, length_drop. lia.
Qed.

Lemma react_state_commit prev w : react_state (commit prev w) = react_state w.
Proof.
  unfold react_state.
  by rewrite commit_devices, commit_selectedDeviceId,
    commit_selectedResolution, commit_error, commit_hasStream,
    commit_isFullscreen.
Qed.

Lemma unmounted_getInitialPermissionAndDevices o w :
  mounted w = false →
  react_state (getInitialPermissionAndDevices o w) = react_state w ∧
  inFlight (getInitialPermissionAndDevices o w) = inFlight w ∧
  mounted (getInitialPermissionAndDevices o w) = false.
Proof.
  intros Hm.
  destruct o as [err|n err|n allDevices]; cbn [getInitialPermissionAndDevices];
    cbn zeta; rewrite ?probe_granted_eq;
    unfold init_catch, console_error, setError, setSelectedDeviceId,
      setDevices; fields; rewrite ?Hm; fields;
    repeat case_match; fields; rewrite ?Hm; first [done | congruence].
Qed.

Lemma unmounted_step w ev :
  mounted w = false →
  mounted (step w ev) = false ∧
  react_state (step w ev) = react_state w ∧
  (length (inFlight (step w ev)) ≤ length (inFlight w))%nat.
Proof.
  intros Hm.
  destruct ev as [o|v|v|k n|k| |granted|e|]; unfold step; rewrite ?Hm;
    try done.
  - destruct (initPending w); [|done].
    destruct (unmounted_getInitialPermissionAndDevices o
                (set_initPending false w) Hm) as (Hr & Hq & Hm').
    unfold commit. rewrite Hm'. cbn [negb]. rewrite Hr, Hq. done.
  - case_match; [|done]. unfold open_stream. cbv beta iota zeta.
    unfold getStream_resolved. cbn zeta. fields. rewrite Hm.
    unfold commit. fields. rewrite Hm. cbn [negb]. fields.
    split; [done|]. split; [done|]. apply length_delete_le.
  - case_match; [|done].
    unfold getStream_rejected, console_error, setHasStream, setError. fields.
    rewrite Hm. fields. rewrite Hm. unfold commit. fields. rewrite Hm.
    cbn [negb]. fields. split; [done|]. split; [done|]. apply length_delete_le.
  - unfold settle_fullscreen, requestFullscreen_rejected, console_error,
      fire_fullscreenchange. cbn zeta. fields. rewrite ?Hm.
    repeat case_match; fields; rewrite ?Hm; first [done | congruence].
  - unfold fire_fullscreenchange. cbn zeta. fields. rewrite ?Hm.
    repeat case_match; fields; rewrite ?Hm; first [done | congruence].
Qed.

(** X8.  Once the component is unmounted it stays unmounted, its React state
    (catalog, selection, error, [hasStream], mirror) never changes again, and
    no new [getUserMedia] call is issued: the calls in flight can only
    settle. *)
Theorem X8_unmounted_component_is_inert :
  ∀ (w : World) (evs : list Event),
    mounted w = false →
    let w' := run w evs in
    mounted w' = false ∧
    react_state w' = react_state w ∧
    (length (inFlight w') ≤ length (inFlight w))%nat.
Proof.
  intros w evs. revert w. induction evs as [|ev evs IH]; intros w Hm; [done|].
  cbn zeta. unfold run. cbn [foldl].
  destruct (unmounted_step w ev Hm) as (Hm1 & Hr1 & Hq1).
  destruct (IH (step w ev) Hm1) as (Hm2 & Hr2 & Hq2). unfold run in *.
  split; [exact Hm2|]. split; [by rewrite Hr2|]. lia.
Qed.

Lemma X8_witness :
  let w := step w_second_target Unmount in
  let evs := [DeviceChange "A"; StreamDelivered 0 1; StreamRefused 0;
              ResolutionChange "3"; ToggleFullscreen] in
  mounted w = false ∧
  react_state (run w evs) = react_state w ∧
  inFlight (run w evs) = [].
Proof.
  cbn zeta.
  assert (mounted (step w_second_target Unmount) = false) as Hm
    by (vm_compute; reflexivity).
  split; [exact Hm|].
  split; [|vm_compute; reflexivity].
  apply (X8_unmounted_component_is_inert _
           [DeviceChange "A"; StreamDelivered 0 1; StreamRefused 0;
            ResolutionChange "3"; ToggleFullscreen] Hm).
Defined.

(** ** X9: what the platform is asked for *)

Lemma index_in_table (i : option Z) :
  JS.index RESOLUTIONS i = None ∨
  ∃ r, r ∈ RESOLUTIONS ∧ JS.index RESOLUTIONS i = Some r.
Proof.
  destruct (JS.index RESOLUTIONS i) as [r|] eqn:Hi; [right|by left].
  exists r. split; [|done]. unfold JS.index in Hi.
  destruct i as [z|]; [|done]. destruct (0 <=? z); [|done].
  by apply list_elem_of_lookup_2 in Hi.
Qed.

Lemma well_formed_commit prev w :
  (mounted w = true →
   selectedResolution w = None ∨
   ∃ r, r ∈ RESOLUTIONS ∧ selectedResolution w = Some r) →
  Forall well_formed_request (inFlight w) →
  resolution_in_table (commit prev w) ∧
  Forall well_formed_request (inFlight (commit prev w)).
Proof.
  intros Hres Hall. unfold resolution_in_table.
  destruct (commit_cases prev w)
    as [Heq|[(_ & _ & ->)|(Hm & Hr & _ & ->)]].
  - unfold commit, render_throws in *.
    destruct (mounted w) eqn:Hm; cbn [negb] in *;
      [|rewrite Hm; split; [discriminate|done]].
    case_bool_decide as Hnone.
    { rewrite unmount_held. fields. split; [discriminate|done]. }
    rewrite Heq. split; [|done]. intros _.
    by destruct (Hres eq_refl) as [?|?].
  - rewrite unmount_held. fields. split; [discriminate|done].
  - destruct (recapture_frame w) as (_ & _ & -> & _ & -> & _).
    rewrite recapture_inFlight.
    destruct (Hres Hm) as [?|(r & Hin & Hsel)]; [done|].
    split; [intros _; by exists r|].
    destruct (String.eqb (selectedDeviceId w) "") eqn:Hid; [done|].
    rewrite Hsel. apply Forall_app. split; [done|].
    apply Forall_singleton. cbn. split; [by apply String.eqb_neq|].
    by exists r.
Qed.

Lemma well_formed_step w ev :
  resolution_in_table w → Forall well_formed_request (inFlight w) →
  resolution_in_table (step w ev) ∧
  Forall well_formed_request (inFlight (step w ev)).
Proof.
  intros Hres Hall.
  destruct (is_fullscreen_event ev) eqn:Hfs.
  { destruct (session_view_fields _ _ (session_view_fullscreen_event w ev Hfs))
      as (_ & _ & _ & Hm & Hr & Hq & _).
    unfold resolution_in_table in *. by rewrite Hm, Hr, Hq. }
  destruct ev as [o|v|v|k n|k| | | |]; try discriminate; unfold step.
  - case_match; [|done]. apply well_formed_commit.
    + destruct (init_capture_frame o (set_initPending false w))
        as (_ & _ & _ & Hm). rewrite Hm. fields. intros Hmw. right.
      destruct (Hres Hmw) as (r & Hin & Hsel). exists r. split; [done|].
      rewrite <- Hsel.
      destruct o as [err|n err|n allDevices];
        cbn [getInitialPermissionAndDevices]; cbn zeta;
        rewrite ?probe_granted_eq;
        unfold init_catch, console_error, setError, setSelectedDeviceId,
          setDevices; fields; rewrite ?Hmw; fields;
        repeat case_match; fields; rewrite ?Hmw; done.
    + by destruct (init_capture_frame o (set_initPending false w))
        as (_ & _ & -> & _).
  - destruct (mounted w) eqn:Hm; [|done]. apply well_formed_commit.
    + unfold handleDeviceChange, setSelectedDeviceId. rewrite Hm. fields.
      intros _. right. by apply Hres.
    + unfold handleDeviceChange, setSelectedDeviceId. by rewrite Hm.
  - destruct (mounted w) eqn:Hm; [|done]. apply well_formed_commit.
    + unfold handleResolutionChange, setSelectedResolution. rewrite Hm. fields.
      intros _. apply index_in_table.
    + unfold handleResolutionChange, setSelectedResolution. by rewrite Hm.
  - case_match; [|done]. unfold open_stream. cbv beta iota zeta.
    apply well_formed_commit; unfold getStream_resolved, setHasStream;
      cbn zeta; fields.
    + destruct (mounted w) eqn:Hm; repeat (progress (fields; rewrite ?Hm));
        [|discriminate]. intros _. right. by apply Hres.
    + destruct (mounted w) eqn:Hm; repeat (progress (fields; rewrite ?Hm));
        by apply Forall_delete.
  - case_match; [|done].
    apply well_formed_commit;
      unfold getStream_rejected, console_error, setHasStream, setError; fields.
    + destruct (mounted w) eqn:Hm; repeat (progress (fields; rewrite ?Hm));
        [|discriminate]. intros _. right. by apply Hres.
    + destruct (mounted w) eqn:Hm; repeat (progress (fields; rewrite ?Hm));
        by apply Forall_delete.
  - destruct (mounted w) eqn:Hm; [|done]. rewrite unmount_held. fields.
    split; [discriminate|done].
Qed.

(** X9.  Through every run from the first render, every [getUserMedia] call
    of [getStream] in flight names an exact, non-empty device id and asks for
    the width and height of one of the four entries of [RESOLUTIONS]; and
    while the component is mounted the selected resolution is one of these
    entries. *)
Theorem X9_requests_use_table_resolutions :
  ∀ (supported exitSupported : bool) (evs : list Event),
    let w := run (App_mount supported exitSupported) evs in
    Forall well_formed_request (inFlight w) ∧ resolution_in_table w.
Proof.
  intros supported exitSupported evs. cbn zeta.
  induction evs as [|ev evs IH] using rev_ind.
  - destruct supported; (split; [apply Forall_nil_2|]); intros _;
      exists (mkResolution "720p (1280x720)" 1280 720);
      (split; [|reflexivity]); right; left.
  - unfold run in *. rewrite foldl_app. cbn [foldl].
    destruct IH as (Hall & Hres).
    by destruct (well_formed_step _ ev Hres Hall).
Qed.

(** ** X10: selecting what is selected *)

Lemma set_selectedDeviceId_id w :
  set_selectedDeviceId (selectedDeviceId w) w = w.
Proof. by destruct w. Qed.

Lemma set_selectedResolution_id w :
  set_selectedResolution (selectedResolution w) w = w.
Proof. by destruct w. Qed.

(** X10.  On a mounted component, an [onChange] that carries the device id
    already selected, or a value that parses to the resolution already
    selected, changes nothing at all: no track is stopped and no call is
    issued. *)
Theorem X10_reselecting_the_target_is_a_no_op :
  ∀ (w : World) (value : string),
    mounted w = true →
    selectedResolution w ≠ None →
    (value = selectedDeviceId w → step w (DeviceChange value) = w) ∧
    (JS.index RESOLUTIONS (JS.parseInt value) = selectedResolution w →
     step w (ResolutionChange value) = w).
Proof.
  intros w value Hm Hr. split.
  - intros ->. unfold step, handleDeviceChange, setSelectedDeviceId.
    rewrite Hm, set_selectedDeviceId_id. by apply commit_same_deps.
  - intros Hv. unfold step, handleResolutionChange, setSelectedResolution.
    rewrite Hm, Hv, set_selectedResolution_id. by apply commit_same_deps.
Qed.

Lemma X10_witness :
  mounted w_streaming = true ∧
  selectedResolution w_streaming ≠ None ∧
  step w_streaming (DeviceChange "A") = w_streaming ∧
  step w_streaming (ResolutionChange "1") = w_streaming.
Proof.
  assert (mounted w_streaming = true) as Hm by (vm_compute; reflexivity).
  assert (selectedResolution w_streaming ≠ None) as Hr
    by (vm_compute; discriminate).
  destruct (X10_reselecting_the_target_is_a_no_op w_streaming "A" Hm Hr)
    as (Hdev & _).
  destruct (X10_reselecting_the_target_is_a_no_op w_streaming "1" Hm Hr)
    as (_ & Hres).
  split; [exact Hm|]. split; [exact Hr|].
  split; [apply Hdev|apply Hres]; vm_compute; reflexivity.
Defined.

(** ** X11, X12: changing the target of a running session *)

Lemma commit_changed_deps prev w :
  mounted w = true → selectedResolution w ≠ None → deps prev ≠ deps w →
  commit prev w = captureEffect (captureCleanup w).
Proof.
  intros Hm Hr Hd. unfold commit, render_throws. rewrite Hm. cbn [negb].
  rewrite bool_decide_eq_false_2 by done.
  by rewrite bool_decide_eq_false_2.
Qed.

(** X11.  When the user picks another camera while the session holds a
    stream, the tracks of that stream are stopped and after that one call
    for the new device at the unchanged resolution is issued, or none when
    the new id is the empty string.  Until that call settles the ref and the
    video element keep the ended stream, and [hasStream] keeps its value. *)
Theorem X11_device_change_releases_before_acquiring :
  ∀ (w : World) (s : MediaStream) (r : Resolution) (value : string),
    mounted w = true →
    streamRef w = Some s →
    selectedResolution w = Some r →
    value ≠ selectedDeviceId w →
    let w' := step w (DeviceChange value) in
    liveTracks w' = liveTracks w ∖ list_to_set (getTracks s) ∧
    inFlight w'
    = (inFlight w
       ++ if String.eqb value "" then []
          else [TargetConstraints value (width r) (height r)])%list ∧
    streamRef w' = Some s ∧
    srcObject w' = srcObject w ∧
    hasStream w' = hasStream w.
Proof.
  intros w s r value Hm Hs Hr Hne. cbn zeta.
  unfold step, handleDeviceChange, setSelectedDeviceId. rewrite Hm.
  rewrite commit_changed_deps; fields; [|done|by rewrite Hr|].
  2:{ unfold deps. fields. intros [= Heq]. by apply Hne. }
  destruct (recapture_frame (set_selectedDeviceId value w))
    as (Hl & Hsr & _ & _ & _ & _ & Hh & Hv & _).
  rewrite Hl, Hsr, Hh, Hv, recapture_inFlight. unfold held_set. fields.
  rewrite Hs, Hr. split; [done|]. split; [|done].
  destruct (String.eqb value ""); [by rewrite app_nil_r|done].
Qed.

Lemma X11_witness :
  mounted w_streaming = true ∧
  streamRef w_streaming
  = Some (mkStream (TargetConstraints "A" 1280 720) [1%nat]) ∧
  liveTracks w_streaming = {[1%nat]} ∧
  liveTracks (step w_streaming (DeviceChange "B")) = ∅ ∧
  inFlight (step w_streaming (DeviceChange "B"))
  = [TargetConstraints "B" 1280 720] ∧
  inFlight (step w_streaming (DeviceChange "")) = [].
Proof.
  assert (mounted w_streaming = true) as Hm by (vm_compute; reflexivity).
  assert (streamRef w_streaming
          = Some (mkStream (TargetConstraints "A" 1280 720) [1%nat])) as Hs
    by (vm_compute; reflexivity).
  assert (selectedResolution w_streaming
          = Some (mkResolution "720p (1280x720)" 1280 720)) as Hr
    by (vm_compute; reflexivity).
  assert ("B" ≠ selectedDeviceId w_streaming) as HB
    by (vm_compute; discriminate).
  assert ("" ≠ selectedDeviceId w_streaming) as HE
    by (vm_compute; discriminate).
  destruct (X11_device_change_releases_before_acquiring
              w_streaming _ _ "B" Hm Hs Hr HB) as (HlB & HqB & _).
  destruct (X11_device_change_releases_before_acquiring
              w_streaming _ _ "" Hm Hs Hr HE) as (_ & HqE & _).
  split; [exact Hm|]. split; [exact Hs|]. split; [vm_compute; reflexivity|].
  split; [rewrite HlB; vm_compute; reflexivity|].
  split; [rewrite HqB; vm_compute; reflexivity|].
  rewrite HqE. vm_compute. reflexivity.
Defined.

(** X12.  A resolution value whose parsed index is outside the table makes
    [selectedResolution] undefined; the next render of [ResolutionSelector]
    throws on it and React unmounts the tree: the tracks of the held stream
    are stopped by the cleanup and no call is issued. *)
Theorem X12_out_of_table_resolution_unmounts :
  ∀ (w : World) (value : string),
    mounted w = true →
    JS.index RESOLUTIONS (JS.parseInt value) = None →
    let w' := step w (ResolutionChange value) in
    ResolutionSelector_selectedIndex (selectedResolution w') = None ∧
    mounted w' = false ∧
    liveTracks w' = liveTracks w ∖ held_set w ∧
    inFlight w' = inFlight w.
Proof.
  intros w value Hm Hv. cbn zeta.
  unfold step, handleResolutionChange, setSelectedResolution.
  rewrite Hm, Hv. unfold commit, render_throws. fields. rewrite Hm.
  cbn [negb]. rewrite bool_decide_eq_true_2 by done.
  rewrite unmount_held. unfold held_set. fields. done.
Qed.

Lemma X12_witness :
  mounted w_streaming = true ∧
  JS.index RESOLUTIONS (JS.parseInt "4") = None ∧
  mounted (step w_streaming (ResolutionChange "4")) = false ∧
  liveTracks (step w_streaming (ResolutionChange "4")) = ∅.
Proof.
  assert (mounted w_streaming = true) as Hm by (vm_compute; reflexivity).
  assert (JS.index RESOLUTIONS (JS.parseInt "4") = None) as Hv
    by (vm_compute; reflexivity).
  destruct (X12_out_of_table_resolution_unmounts w_streaming "4" Hm Hv)
    as (_ & Hgone & Hl & _).
  split; [exact Hm|]. split; [exact Hv|]. split; [exact Hgone|].
  rewrite Hl. vm_compute. reflexivity.
Defined.

(** ** X13, X14, X15: how the catalog settles *)

Lemma init_frame o w :
  let w' := getInitialPermissionAndDevices o w in
  selectedResolution w' = selectedResolution w ∧
  hasStream w' = hasStream w.
Proof.
  cbn zeta.
  destruct o as [err|n err|n allDevices]; cbn [getInitialPermissionAndDevices];
    cbn zeta; rewrite ?probe_granted_eq;
    unfold init_catch, console_error, setError, setSelectedDeviceId,
      setDevices;
    destruct (mounted w) eqn:Hm; repeat (progress (fields; rewrite ?Hm));
    repeat case_match; repeat (progress (fields; rewrite ?Hm)); done.
Qed.

Lemma commit_liveTracks prev w : liveTracks (commit prev w) ⊆ liveTracks w.
Proof.
  destruct (commit_cases prev w)
    as [->|[(_ & _ & ->)|(_ & _ & _ & ->)]]; [done|..].
  - rewrite unmount_held. fields. apply subseteq_difference_l. done.
  - destruct (recapture_frame w) as (-> & _).
    apply subseteq_difference_l. done.
Qed.

(** X13.  When the catalog settles with at least one camera whose id is not
    empty, one [getUserMedia] call is issued at once, for the first camera at
    the default 1280x720; with an empty catalog (or an empty first id) none
    is.  Either way no track is live and [hasStream] is false. *)
Theorem X13_first_camera_is_requested_at_720p :
  ∀ (exitSupported : bool) (ntracks : nat) (allDevices : list MediaDeviceInfo),
    let w := step (App_mount true exitSupported)
               (InitSettled (Enumerated ntracks allDevices)) in
    inFlight w
    = match filter (λ device, kind device = videoinput) allDevices with
      | device0 :: _ =>
          if String.eqb (deviceId device0) "" then []
          else [TargetConstraints (deviceId device0) 1280 720]
      | [] => []
      end ∧
    liveTracks w = ∅ ∧
    hasStream w = false.
Proof.
  intros exitSupported ntracks allDevices. cbn zeta.
  set (w0 := set_initPending false (App_mount true exitSupported)).
  change (step (App_mount true exitSupported) (InitSettled ?o))
    with (commit (App_mount true exitSupported)
            (getInitialPermissionAndDevices o w0)).
  set (w1 := getInitialPermissionAndDevices _ w0).
  destruct (init_enumerated w0 ntracks allDevices eq_refl)
    as (Hm & _ & Hid & _).
  destruct (init_capture_frame (Enumerated ntracks allDevices) w0)
    as (Hl & Hs & Hq & _).
  destruct (init_frame (Enumerated ntracks allDevices) w0) as (Hr & Hh).
  fold w1 in Hm, Hid, Hl, Hs, Hq, Hr, Hh.
  change (liveTracks w0) with (∅ : gset nat) in Hl.
  change (streamRef w0) with (@None MediaStream) in Hs.
  change (inFlight w0) with (@nil Constraints) in Hq.
  change (selectedResolution w0)
    with (Some (mkResolution "720p (1280x720)" 1280 720)) in Hr.
  change (hasStream w0) with false in Hh.
  change (selectedDeviceId w0) with "" in Hid.
  rewrite commit_hasStream, Hh.
  assert (liveTracks w1 = ∅) as Hnone.
  { apply set_eq. intros t. split; [apply Hl|by intros ?%not_elem_of_empty]. }
  split; [|split; [|done]].
  2:{ apply set_eq. intros t. split; [|by intros ?%not_elem_of_empty].
      intros Ht%commit_liveTracks. by rewrite Hnone in Ht. }
  destruct (decide (selectedDeviceId w1 = "")) as [Hempty|Hfull].
  - rewrite commit_same_deps_inFlight; [|unfold deps; by rewrite Hr, Hempty].
    rewrite Hq. rewrite Hid in Hempty.
    destruct (filter _ allDevices) as [|device0 rest]; [done|].
    by rewrite Hempty.
  - rewrite commit_changed_deps; [|done|by rewrite Hr|].
    2:{ unfold deps. intros [= Heq]. by apply Hfull. }
    rewrite recapture_inFlight, Hq, Hr.
    apply String.eqb_neq in Hfull as Hneq. rewrite Hneq, Hid.
    rewrite Hid in Hfull, Hneq.
    destruct (filter _ allDevices) as [|device0 rest]; [done|].
    by rewrite Hneq.
Qed.

(** X14.  When the probe or the enumeration rejects, the banner shows the
    access-denied message for a [NotAllowedError] or
    [PermissionDeniedError], the could-not-access message for any other
    [Error] and the unknown-error message for a thrown value that is no
    [Error]; the catalog stays empty, nothing is selected, no call is issued,
    no track stays live and both selectors are disabled. *)
Theorem X14_rejected_initialisation :
  ∀ (exitSupported : bool) (o : InitOutcome) (err : Thrown),
    (o = ProbeRejected err ∨ ∃ ntracks, o = EnumerationRejected ntracks err) →
    let w := step (App_mount true exitSupported) (InitSettled o) in
    error w
    = Some (if is_permission_refusal err then msg_access_denied
            else match err with
                 | ErrorObject _ => msg_no_access
                 | NotAnError => msg_unknown
                 end) ∧
    devices w = [] ∧
    selectedDeviceId w = "" ∧
    inFlight w = [] ∧
    liveTracks w = ∅ ∧
    App_controls_disabled w = true.
Proof.
  intros exitSupported o err Ho. cbn zeta.
  set (w0 := set_initPending false (App_mount true exitSupported)).
  change (step (App_mount true exitSupported) (InitSettled o))
    with (commit (App_mount true exitSupported)
            (getInitialPermissionAndDevices o w0)).
  set (w1 := getInitialPermissionAndDevices o w0).
  destruct (init_capture_frame o w0) as (Hl & _ & Hq & _).
  fold w1 in Hl, Hq.
  change (liveTracks w0) with (∅ : gset nat) in Hl.
  change (inFlight w0) with (@nil Constraints) in Hq.
  assert (∀ w, mounted w = true →
    error (init_catch err w)
    = Some (if is_permission_refusal err then msg_access_denied
            else match err with
                 | ErrorObject _ => msg_no_access
                 | NotAnError => msg_unknown
                 end) ∧
    devices (init_catch err w) = devices w ∧
    selectedDeviceId (init_catch err w) = selectedDeviceId w ∧
    selectedResolution (init_catch err w) = selectedResolution w) as Hcatch.
  { intros w Hm. unfold init_catch, console_error, setError.
    destruct err as [name|]; cbn [is_permission_refusal]; rewrite Hm; fields;
      [|done].
    assert (String.eqb name "NotAllowedError"
            || String.eqb name "PermissionDeniedError"
            = bool_decide (name = "NotAllowedError")
              || bool_decide (name = "PermissionDeniedError")) as ->.
    { f_equal; (case_bool_decide as Hn;
        [by apply String.eqb_eq|by apply String.eqb_neq]). }
    by case_match. }
  assert (error w1
          = Some (if is_permission_refusal err then msg_access_denied
                  else match err with
                       | ErrorObject _ => msg_no_access
                       | NotAnError => msg_unknown
                       end) ∧
          devices w1 = [] ∧ selectedDeviceId w1 = "" ∧
          selectedResolution w1
          = Some (mkResolution "720p (1280x720)" 1280 720))
    as (He & Hd & Hid & Hr).
  { subst w1. destruct Ho as [->|(ntracks & ->)];
      cbn [getInitialPermissionAndDevices].
    - by destruct (Hcatch w0 eq_refl) as (-> & -> & -> & ->).
    - rewrite probe_granted_eq.
      by destruct (Hcatch (set_liveTracks
                    ((liveTracks w0 ∪ list_to_set (seq (nextTrack w0) ntracks))
                     ∖ list_to_set (seq (nextTrack w0) ntracks))
                    (set_nextTrack (nextTrack w0 + ntracks)%nat
                       (set_opened
                          (opened w0
                           ++ [mkStream ProbeConstraints
                                 (seq (nextTrack w0) ntracks)]) w0)))
                    eq_refl) as (-> & -> & -> & ->). }
  rewrite commit_error, commit_devices, commit_selectedDeviceId, He, Hd, Hid.
  rewrite commit_same_deps_inFlight by (unfold deps; by rewrite Hid, Hr).
  rewrite Hq. unfold App_controls_disabled.
  rewrite commit_error, commit_devices, Hd, orb_true_r.
  repeat split; try done.
  apply set_eq. intros t. split; [|by intros ?%not_elem_of_empty].
  intros Ht%commit_liveTracks. by apply Hl.
Qed.

Lemma X14_witness :
  let o := EnumerationRejected 1 (ErrorObject "NotReadableError") in
  (o = ProbeRejected (ErrorObject "NotReadableError") ∨
   ∃ ntracks, o = EnumerationRejected ntracks (ErrorObject "NotReadableError")) ∧
  error (step (App_mount true true) (InitSettled o)) = Some msg_no_access.
Proof.
  cbn zeta.
  assert (EnumerationRejected 1 (ErrorObject "NotReadableError")
          = ProbeRejected (ErrorObject "NotReadableError") ∨
          ∃ ntracks, EnumerationRejected 1 (ErrorObject "NotReadableError")
                     = EnumerationRejected ntracks
                         (ErrorObject "NotReadableError")) as Ho
    by (right; exists 1%nat; reflexivity).
  split; [exact Ho|].
  by destruct (X14_rejected_initialisation true _ _ Ho) as (He & _).
Defined.

(** X15.  Settling the catalog never turns a track on: whichever way the
    probe and the enumeration end, and in whatever state the component is,
    every track live afterwards was live before. *)
Theorem X15_probe_stream_is_always_released :
  ∀ (w : World) (o : InitOutcome),
    liveTracks (step w (InitSettled o)) ⊆ liveTracks w.
Proof.
  intros w o. unfold step. destruct (initPending w); [|done].
  etrans; [apply commit_liveTracks|].
  by destruct (init_capture_frame o (set_initPending false w)) as (Hl & _).
Qed.

(** ** X16, X17: what the two selectors render *)

Lemma digit_char (d : nat) (rest : string) :
  (d < 10)%nat →
  JS.digit_value (ascii_of_nat (48 + d)) = Some (Z.of_nat d) ∧
  JS.trim_start (String (ascii_of_nat (48 + d)) rest)
  = String (ascii_of_nat (48 + d)) rest ∧
  JS.parseInt (String (ascii_of_nat (48 + d)) rest)
  = JS.read_digits None (String (ascii_of_nat (48 + d)) rest).
Proof.
  intros Hd.
  do 10 (destruct d as [|d]; [repeat split|]). lia.
Qed.

Lemma digits_of_head fuel n acc :
  ∃ d rest, (d < 10)%nat ∧
    digits_of (S fuel) n acc = String (ascii_of_nat (48 + d)) rest.
Proof.
  revert n acc. induction fuel as [|fuel IH]; intros n acc;
    cbn [digits_of]; cbn zeta.
  - exists (n mod 10)%nat, acc. split; [apply Nat.mod_upper_bound; lia|].
    by destruct (n <? 10)%nat.
  - destruct (n <? 10)%nat; [|apply IH].
    exists (n mod 10)%nat, acc. split; [apply Nat.mod_upper_bound; lia|done].
Qed.

(** Reading back the digits written for [n] continues from [a] shifted by
    the number of digits. *)
Lemma read_digits_of fuel :
  ∀ n acc a, (n ≤ fuel)%nat →
    ∃ k : nat,
      JS.read_digits a (digits_of (S fuel) n acc)
      = JS.read_digits (Some (default 0 a * 10 ^ Z.of_nat k + Z.of_nat n)) acc.
Proof.
  induction fuel as [|fuel IH]; intros n acc a Hn;
    change (digits_of (S ?f) n acc)
      with (if (n <? 10)%nat
            then String (ascii_of_nat (48 + n mod 10)) acc
            else digits_of f (n / 10)
                   (String (ascii_of_nat (48 + n mod 10)) acc));
    assert (n mod 10 < 10)%nat as Hmod by (apply Nat.mod_upper_bound; lia);
    destruct (digit_char (n mod 10) acc Hmod) as (Hdigit & _);
    pose proof (Nat.div_mod_eq n 10) as Hdm;
    destruct (n <? 10)%nat eqn:Hsmall;
    try (apply Nat.ltb_lt in Hsmall; exists 1%nat;
         cbn [JS.read_digits]; rewrite Hdigit;
         rewrite (Nat.mod_small n 10) by lia; do 2 f_equal;
         change (Z.of_nat 1) with 1; rewrite Z.pow_1_r; lia).
  - apply Nat.ltb_ge in Hsmall. lia.
  - apply Nat.ltb_ge in Hsmall.
    destruct (IH (n / 10)%nat (String (ascii_of_nat (48 + n mod 10)) acc) a)
      as (k & Hk).
    { assert (n / 10 < n)%nat by (apply Nat.div_lt; lia). lia. }
    exists (S k). rewrite Hk. cbn [JS.read_digits]. rewrite Hdigit.
    cbn [default]. do 2 f_equal.
    rewrite Nat2Z.inj_succ, Z.pow_succ_r by lia.
    assert (Z.of_nat n = 10 * Z.of_nat (n / 10) + Z.of_nat (n mod 10)) as ->
      by lia.
    unfold id. ring.
Qed.

(** [parseInt(String(n), 10)] is [n]. *)
Lemma parseInt_Number_toString (n : nat) :
  JS.parseInt (Number_toString n) = Some (Z.of_nat n).
Proof.
  unfold Number_toString.
  destruct (digits_of_head n n "") as (d & rest & Hd & Heq).
  destruct (digit_char d rest Hd) as (_ & _ & Hparse).
  rewrite Heq, Hparse, <- Heq.
  destruct (read_digits_of n n "" None (le_n n)) as (k & ->).
  cbn [JS.read_digits default]. f_equal; lia.
Qed.

Lemma index_lookup {A} (arr : list A) (i : nat) :
  JS.index arr (Some (Z.of_nat i)) = arr !! i.
Proof.
  unfold JS.index. rewrite Nat2Z.id.
  by destruct (0 <=? Z.of_nat i) eqn:Hle; [|apply Z.leb_gt in Hle; lia].
Qed.

(** X16.  The resolution selector and its handler agree: the [i]-th option
    carries the label of the [i]-th entry of [RESOLUTIONS] and the value
    [String(i)]; an [onChange] with that value selects that entry; and with
    that entry selected the selector shows the [i]-th option again. *)
Theorem X16_resolution_options_round_trip :
  ∀ (w : World) (i : nat) (r : Resolution),
    mounted w = true →
    RESOLUTIONS !! i = Some r →
    ResolutionSelector_options !! i = Some (Number_toString i, label r) ∧
    selectedResolution (step w (ResolutionChange (Number_toString i))) = Some r ∧
    ResolutionSelector_value (Some r) = Some (Number_toString i).
Proof.
  intros w i r Hm Hi. split; [|split].
  - unfold ResolutionSelector_options. by rewrite list_lookup_imap, Hi.
  - unfold step. rewrite Hm, commit_selectedResolution.
    unfold handleResolutionChange, setSelectedResolution. rewrite Hm. fields.
    by rewrite parseInt_Number_toString, index_lookup.
  - do 4 (destruct i as [|i]; [injection Hi as <-; reflexivity|]).
    discriminate.
Qed.

Lemma X16_witness :
  mounted w_streaming = true ∧
  RESOLUTIONS !! 2%nat = Some (mkResolution "1080p (1920x1080)" 1920 1080) ∧
  Number_toString 2 = "2" ∧
  selectedResolution (step w_streaming (ResolutionChange (Number_toString 2)))
  = Some (mkResolution "1080p (1920x1080)" 1920 1080).
Proof.
  assert (mounted w_streaming = true) as Hm by (vm_compute; reflexivity).
  destruct (X16_resolution_options_round_trip w_streaming 2
              (mkResolution "1080p (1920x1080)" 1920 1080) Hm eq_refl)
    as (_ & Hsel & _).
  split; [exact Hm|]. split; [reflexivity|]. split; [reflexivity|exact Hsel].
Defined.

(** X17.  The camera selector always renders at least one option and never
    one with an empty text: a device without a label is shown as "Camera"
    followed by its position.  With a non-empty catalog the option values
    are the device ids in catalog order; with an empty catalog the only
    option is the placeholder and the selector is disabled. *)
Theorem X17_camera_options_are_labelled :
  ∀ (disabled : bool) (devs : list MediaDeviceInfo),
    let options := DeviceSelector_options devs in
    (0 < length options)%nat ∧
    Forall (λ o, o.2 ≠ "") options ∧
    (devs ≠ [] → options.*1 = deviceId <$> devs) ∧
    (devs = [] →
     options = [("No cameras found", "No cameras found")] ∧
     DeviceSelector_disabled disabled devs = true).
Proof.
  intros disabled devs. cbn zeta. unfold DeviceSelector_options.
  destruct devs as [|device0 devs].
  - cbn. split; [lia|]. split; [|split; [done|]].
    + apply Forall_singleton. cbn. discriminate.
    + intros _. split; [done|]. unfold DeviceSelector_disabled.
      apply orb_true_r.
  - change (0 <? length (device0 :: devs))%nat with true. cbv iota.
    split; [rewrite length_imap; cbn; lia|]. split; [|split; [|done]].
    + apply Forall_lookup. intros index [value text] Hlook.
      rewrite list_lookup_imap in Hlook.
      destruct ((device0 :: devs) !! index) as [device|]; [|done].
      injection Hlook as _ <-. cbn.
      destruct (String.eqb (deviceLabel device) "") eqn:Hlabel;
        [discriminate|by apply String.eqb_neq].
    + intros _. apply list_eq. intros index.
      rewrite !list_lookup_fmap, list_lookup_imap.
      by destruct ((device0 :: devs) !! index).
Qed.

(** ** X18: when the video is shown *)

(** X18.  A successful acquisition on a mounted component puts the delivered
    stream on the video element and sets [hasStream], but it does not touch
    the error: the video and its fullscreen button are shown exactly when no
    error banner is up. *)
Theorem X18_delivered_stream_shown_unless_error :
  ∀ (w : World) (k ntracks : nat) (c : Constraints),
    mounted w = true →
    selectedResolution w ≠ None →
    inFlight w !! k = Some c →
    let w' := step w (StreamDelivered k ntracks) in
    srcObject w' = Some (mkStream c (seq (nextTrack w) ntracks)) ∧
    error w' = error w ∧
    App_video_shown w' = negb (App_banner_shown w).
Proof.
  intros w k ntracks c Hm Hr Hk. cbn zeta.
  destruct (delivered_is_committed w k ntracks c Hm Hr Hk)
    as (Hs & Hv & Hh & _).
  assert (error (step w (StreamDelivered k ntracks)) = error w) as He.
  { unfold step. rewrite Hk. unfold open_stream. cbv beta iota zeta.
    rewrite commit_error, getStream_resolved_mounted by exact Hm. done. }
  split; [by rewrite Hv, Hs|]. split; [exact He|].
  unfold App_video_shown, App_banner_shown. by rewrite Hh, He.
Qed.

Lemma X18_witness :
  mounted w_first_target = true ∧
  selectedResolution w_first_target ≠ None ∧
  inFlight w_first_target !! 0%nat = Some (TargetConstraints "A" 1280 720) ∧
  App_video_shown (step w_first_target (StreamDelivered 0 1)) = true.
Proof.
  assert (mounted w_first_target = true) as Hm by (vm_compute; reflexivity).
  assert (selectedResolution w_first_target ≠ None) as Hr
    by (vm_compute; discriminate).
  assert (inFlight w_first_target !! 0%nat
          = Some (TargetConstraints "A" 1280 720)) as Hk
    by (vm_compute; reflexivity).
  destruct (X18_delivered_stream_shown_unless_error
              w_first_target 0 1 _ Hm Hr Hk) as (_ & _ & Hshown).
  split; [exact Hm|]. split; [exact Hr|]. split; [exact Hk|].
  rewrite Hshown. vm_compute. reflexivity.
Defined.

Lemma X17_witness :
  let devs := [camA; mkDevice "Z" videoinput ""] in
  devs ≠ [] ∧
  DeviceSelector_options devs = [("A", "Front camera"); ("Z", "Camera 2")] ∧
  (DeviceSelector_options devs).*1 = deviceId <$> devs.
Proof.
  cbn zeta.
  destruct (X17_camera_options_are_labelled false
              [camA; mkDevice "Z" videoinput ""]) as (_ & _ & Hvalues & _).
  assert ([camA; mkDevice "Z" videoinput ""] ≠ []) as Hne by discriminate.
  split; [exact Hne|]. split; [vm_compute; reflexivity|exact (Hvalues Hne)].
Defined.
